(** * projj: the command engine of [lib/base_command.js]

    A shallow embedding of the base command of projj (configuration
    resolution, hook invocation, subprocess execution and the add-repository
    workflow) together with the properties its specification states.

    JavaScript objects are finite maps from member names to JSON values
    ([gmap string json]), their own members; a member read by a name
    ([hooks[name]]) falls back on the members every object inherits from
    [Object.prototype].  Generator methods ([* f() { yield ... }])
    become computations of a state-and-exception monad over an explicit
    [World]; everything outside the process (subprocesses, the interactive
    prompt, library helpers) is gathered in the [Runtime] interface. *)

From Stdlib Require Import Strings.String Strings.Ascii ZArith List Bool Lia.
From stdpp Require Import base option list gmap sets strings pretty.

Local Open Scope string_scope.

(* ===================================================================== *)
(** ** JSON values and the JavaScript operations the source uses on them *)
(* ===================================================================== *)

(** What [JSON.parse] produces.  Numbers are kept as integers: nothing in
    this file computes with them, only their truthiness is observed. *)
#[warnings="-register-all"]
Inductive json : Type :=
  | JNull
  | JBool (b : bool)
  | JNum (n : Z)
  | JStr (s : string)
  | JArr (l : list json)
  | JObj (m : gmap string json).

(** A JavaScript value read from a member access: [None] is [undefined]. *)
Abbreviation jsval := (option json).

(** Errors a step can throw. *)
Inductive error : Type :=
  | TypeError
  | SyntaxError
  | IOError
  | ProcessError (stderr : option string).

Abbreviation result A := (error + A)%type.

(** ToBoolean. *)
Definition truthy (v : jsval) : bool :=
  match v with
  | None | Some JNull => false
  | Some (JBool b) => b
  | Some (JNum n) => negb (n =? 0)%Z
  | Some (JStr s) => negb (String.eqb s EmptyString)
  | Some (JArr _) | Some (JObj _) => true
  end.

(** The position a member name denotes in an array or string of length
    [len]: the canonical decimal names ["0"], ["17"], not ["007"]. *)
Definition array_index (k : string) (len : nat) : option nat :=
  List.find (fun n => String.eqb (pretty n) k) (seq 0 len).

(** The character of [s] at position [n], as a one-character string. *)
Definition char_at (s : string) (n : nat) : option string :=
  match String.get n s with
  | Some c => Some (String c EmptyString)
  | None => None
  end.

(** The own member of a JSON value [v] under the name [k]: a member of
    the object, an element of the array, a character of the string, or
    [length].  This is all of [v[k]] when [k] is an index ([base[0]]): no
    prototype has a member named by a number.  Reading a member of [null]
    or [undefined] throws. *)
Definition js_get (v : jsval) (k : string) : result jsval :=
  match v with
  | None | Some JNull => inl TypeError
  | Some (JObj m) => inr (m !! k)
  | Some (JArr l) =>
      inr (if String.eqb k "length" then Some (JNum (Z.of_nat (length l)))
           else match array_index k (length l) with
                | Some n => l !! n
                | None => None
                end)
  | Some (JStr s) =>
      inr (if String.eqb k "length" then Some (JNum (Z.of_nat (String.length s)))
           else match array_index k (String.length s) with
                | Some n => JStr <$> char_at s n
                | None => None
                end)
  | Some (JBool _) | Some (JNum _) => inr None
  end.

(** The own enumerable members [Object.assign] copies from a source. *)
Definition own_members (v : jsval) : gmap string json :=
  match v with
  | Some (JObj m) => m
  | Some (JArr l) => list_to_map (imap (fun i x => (pretty i, x)) l)
  | Some (JStr s) =>
      list_to_map (imap (fun i c => (pretty i, JStr (String c EmptyString)))
                        (list_ascii_of_string s))
  | _ => ∅
  end.

(** [Object.assign(target, source)]: the source wins on shared names. *)
Definition Object_assign (target : gmap string json) (source : jsval)
  : gmap string json :=
  own_members source ∪ target.

(** *** Members found on the prototype chain *)

(** The names of the members of [Object.prototype], which every object,
    array, string, number and boolean inherits: the functions of the
    language and, under [__proto__], the prototype itself. *)
Definition Object_prototype : list string :=
  [ "constructor"; "hasOwnProperty"; "isPrototypeOf";
    "propertyIsEnumerable"; "toLocaleString"; "toString"; "valueOf";
    "__proto__"; "__defineGetter__"; "__defineSetter__";
    "__lookupGetter__"; "__lookupSetter__" ].

Definition in_Object_prototype (k : string) : bool :=
  existsb (String.eqb k) Object_prototype.

(** What a member read can give: a JSON value that the value read from
    holds itself, or the member that it inherits under the name.
    [Inherited v k] is the built-in function (or, for [__proto__], the
    prototype object) that [v[k]] finds on the prototype chain of [v]. *)
Inductive value : Type :=
  | Json (v : json)
  | Inherited (v : json) (k : string).

Coercion Json : json >-> value.

(** ToBoolean of what a member read gave: functions and objects are
    truthy. *)
Definition value_truthy (v : option value) : bool :=
  match v with
  | None => false
  | Some (Json j) => truthy (Some j)
  | Some (Inherited _ _) => true
  end.

(* ===================================================================== *)
(** ** Strings: [String.prototype.replace] and the scheme-stripping regex *)
(* ===================================================================== *)

(** First occurrence of [pat] in [s]: the text before it and after it. *)
Fixpoint find_first (pat s : string) : option (string * string) :=
  if String.prefix pat s
  then Some (EmptyString, String.substring (String.length pat)
                                           (String.length s - String.length pat) s)
  else match s with
       | EmptyString => None
       | String c t =>
           match find_first pat t with
           | Some (before, after) => Some (String c before, after)
           | None => None
           end
       end.

(** GetSubstitution for a string pattern (no capture groups): [$$] is a
    dollar sign, [$&] the matched text, [$`] the text before the match and
    [$'] the text after it; any other [$] stands for itself. *)
Fixpoint GetSubstitution (matched before after replacement : string) : string :=
  match replacement with
  | EmptyString => EmptyString
  | String c r =>
      if Ascii.eqb c "$" then
        match r with
        | String d r' =>
            if Ascii.eqb d "$" then String "$" (GetSubstitution matched before after r')
            else if Ascii.eqb d "&" then matched ++ GetSubstitution matched before after r'
            else if Ascii.eqb d "`" then before ++ GetSubstitution matched before after r'
            else if Ascii.eqb d "'" then after ++ GetSubstitution matched before after r'
            else String c (GetSubstitution matched before after r)
        | EmptyString => String c EmptyString
        end
      else String c (GetSubstitution matched before after r)
  end.

(** [s.replace(pat, replacement)] with a string pattern: the first
    occurrence only. *)
Definition String_replace (s pat replacement : string) : string :=
  match find_first pat s with
  | Some (before, after) =>
      before ++ GetSubstitution pat before after replacement ++ after
  | None => s
  end.

(** [s.replace(/https?:\/\//, '')]: the leftmost [http://] or [https://],
    wherever it stands, is removed. *)
Fixpoint strip_scheme (s : string) : string :=
  if String.prefix "https://" s then String.substring 8 (String.length s - 8) s
  else if String.prefix "http://" s then String.substring 7 (String.length s - 7) s
  else match s with
       | EmptyString => EmptyString
       | String c t => String c (strip_scheme t)
       end.

(** A text in which the character [c] does not occur. *)
Definition no_char (c : ascii) (s : string) : bool :=
  forallb (fun x => negb (Ascii.eqb x c)) (list_ascii_of_string s).

(** A text without a dollar sign: as a replacement it is inserted as it
    is. *)
Definition no_dollar (s : string) : bool :=
  forallb (fun c => negb (Ascii.eqb c "$")) (list_ascii_of_string s).


(* ===================================================================== *)
(** ** Node's POSIX [path] module *)
(* ===================================================================== *)

Module path.

Definition slash : ascii := "/"%char.

(** [path.isAbsolute]: non-empty and starting with a slash. *)
Definition isAbsolute (p : string) : bool :=
  match p with
  | String c _ => Ascii.eqb c slash
  | EmptyString => false
  end.

(** The segments between slashes, empty ones included. *)
Fixpoint split (p : string) : list string :=
  match p with
  | EmptyString => [EmptyString]
  | String c t =>
      if Ascii.eqb c slash then EmptyString :: split t
      else match split t with
           | seg :: rest => String c seg :: rest
           | [] => [String c EmptyString]
           end
  end.

(** Resolution of [.] and [..]: [stack] holds the segments kept so far,
    innermost first.  Above the root of a relative path [..] is kept
    when [allowAboveRoot] is set, and dropped otherwise. *)
Fixpoint resolve (allowAboveRoot : bool) (stack segs : list string)
  : list string :=
  match segs with
  | [] => rev stack
  | seg :: rest =>
      if String.eqb seg EmptyString || String.eqb seg "." then
        resolve allowAboveRoot stack rest
      else if String.eqb seg ".." then
        match stack with
        | top :: below =>
            if String.eqb top ".."
            then resolve allowAboveRoot
                   (if allowAboveRoot then seg :: stack else stack) rest
            else resolve allowAboveRoot below rest
        | [] =>
            resolve allowAboveRoot
              (if allowAboveRoot then [seg] else []) rest
        end
      else resolve allowAboveRoot (seg :: stack) rest
  end.

Definition concat_with_slash (segs : list string) : string :=
  match segs with
  | [] => EmptyString
  | seg :: rest => fold_left (fun acc x => acc ++ "/" ++ x) rest seg
  end.

Definition ends_with_slash (p : string) : bool :=
  match rev (list_ascii_of_string p) with
  | c :: _ => Ascii.eqb c slash
  | [] => false
  end.

(** [path.normalize]. *)
Definition normalize (p : string) : string :=
  match p with
  | EmptyString => "."
  | _ =>
      let absolute := isAbsolute p in
      let body := concat_with_slash (resolve (negb absolute) [] (split p)) in
      let body := if String.eqb body EmptyString && negb absolute
                  then "." else body in
      let body := if negb (String.eqb body EmptyString) && ends_with_slash p
                  then body ++ "/" else body in
      if absolute then "/" ++ body else body
  end.

(** [path.join(a, b)]: the non-empty arguments separated by a slash,
    normalized; [.] when both are empty. *)
Definition join (a b : string) : string :=
  match a, b with
  | EmptyString, EmptyString => "."
  | EmptyString, _ => normalize b
  | _, EmptyString => normalize a
  | _, _ => normalize (a ++ "/" ++ b)
  end.

Fixpoint drop_while {A} (f : A -> bool) (l : list A) : list A :=
  match l with
  | x :: t => if f x then drop_while f t else l
  | [] => []
  end.

(** [path.dirname]: trailing slashes are skipped, then everything up to
    the last slash that is not the first character is kept. *)
Definition dirname (p : string) : string :=
  match p with
  | EmptyString => "."
  | String c0 rest =>
      let hasRoot := Ascii.eqb c0 slash in
      let backwards := rev (list_ascii_of_string rest) in
      let no_trailing := drop_while (fun c => Ascii.eqb c slash) backwards in
      let to_slash :=
        drop_while (fun c => negb (Ascii.eqb c slash)) no_trailing in
      match to_slash with
      | [] => if hasRoot then "/" else "."
      | _ :: kept =>
          if hasRoot && (length kept =? 0)%nat then "//"
          else String c0 (string_of_list_ascii (rev kept))
      end
  end.

End path.

(** A segment that [path.normalize] keeps as it is. *)
Definition plain_segment (seg : string) : Prop :=
  path.split seg = [seg]
  /\ String.eqb seg EmptyString = false
  /\ String.eqb seg "." = false
  /\ String.eqb seg ".." = false.

(* ===================================================================== *)
(** ** The world outside the command and the trace of what it does *)
(* ===================================================================== *)

(** The options the subprocess runner receives.  [stdio: 'pipe'] and the
    [stdout] stream that [runScript] adds are the same at every call; the
    environment and the working directory are what varies.  [opt_env]
    gives what reading a variable off [opt.env] gives: a variable that
    holds [undefined] reads like one that is not there. *)
Record RunOpts : Type := mkOpts {
  opt_env : gmap string string;
  opt_cwd : option string;
}.

(** The file system: regular files with their text, and directories. *)
Record FS : Type := mkFS {
  files : gmap string string;
  dirs : gset string;
}.

(** What a finished subprocess leaves behind.  [exit_error] is the
    exception [runscript] rejects with, if any. *)
Record Exit : Type := mkExit {
  exit_stdout : string;
  exit_error : option error;
  exit_fs : FS;
}.

(** Everything the command gets from outside: the process environment and
    the collaborators it calls. *)
Class Runtime : Type := {
  (** [process.env.HOME]; the module does not load without it. *)
  HOME : string;
  (** The other variables of [process.env]. *)
  ambient : gmap string string;
  (** [process.cwd()]. *)
  process_cwd : string;
  (** [__dirname] of the module. *)
  lib_dirname : string;
  (** [runscript(cmd, opt)] of the runscript package, run on a file system. *)
  runscript : value -> RunOpts -> FS -> Exit;
  (** [inquirer.prompt] asked for one input with a default. *)
  prompt : string -> string -> string;
  (** [JSON.parse]; [None] when it throws. *)
  JSON_parse : string -> option json;
  (** [JSON.stringify(value, null, indent)]. *)
  JSON_stringify : nat -> json -> string;
  (** [giturl.parse] of the giturl package. *)
  giturl_parse : string -> string;
  (** The names of the methods of the prototype of an array, a string, a
      number or a boolean ([Array.prototype], [String.prototype], ...),
      which comes before [Object.prototype] on its chain; they grow with
      the edition of the language the engine implements. *)
  prototype_names : json -> list string;
}.

(** What the command does, in the order it does it. *)
Inductive Event : Type :=
  | EvInfo (line : string)                  (* this.logger.info *)
  | EvSpawn (cmd : value) (opt : RunOpts)   (* the subprocess starts *)
  | EvChildOut (text : string)              (* its stdout, through childLogger *)
  | EvExit (cmd : value) (ok : bool)        (* the subprocess has ended *)
  | EvChildInfo (text : string)             (* this.childLogger.info(stderr) *)
  | EvCacheGet (key : option string)
  | EvCacheSet (key : string) (value : json)
  | EvCacheDump (ok : bool)
  | EvExists (p : string) (answer : bool)   (* fs.exists *)
  | EvMkdir (p : string)
  | EvReadFile (p : string)
  | EvWriteFile (p : string) (text : string)
  | EvPrompt (default answer : string).

(** The state a command instance works on.  The persisted index is
    written by this command only: one command instance runs at a time
    against a given index file (section 4.3), and the subprocesses act on
    the file system [fs]. *)
Record World : Type := mkWorld {
  fs : FS;
  (** The persisted index, as the mapping the file holds. *)
  index_file : gmap string json;
  (** The in-memory index of [this.cache]; [None] until first loaded. *)
  index_mem : option (gmap string json);
  (** [this.config]; [None] is [undefined]. *)
  this_config : option (gmap string json);
  trace : list Event;
}.

Definition emit (e : Event) (w : World) : World :=
  mkWorld (fs w) (index_file w) (index_mem w) (this_config w) (trace w ++ [e]).

Definition with_fs (f : FS) (w : World) : World :=
  mkWorld f (index_file w) (index_mem w) (this_config w) (trace w).

Definition with_index_file (m : gmap string json) (w : World) : World :=
  mkWorld (fs w) m (index_mem w) (this_config w) (trace w).

Definition with_index_mem (m : gmap string json) (w : World) : World :=
  mkWorld (fs w) (index_file w) (Some m) (this_config w) (trace w).

Definition with_config (c : gmap string json) (w : World) : World :=
  mkWorld (fs w) (index_file w) (index_mem w) (Some c) (trace w).

(** The index as the command sees it: the in-memory copy once loaded, the
    persisted one before. *)
Definition index (w : World) : gmap string json :=
  default (index_file w) (index_mem w).

(** *** The monad of generator methods: state, and an exception that ends
    the method while keeping the state reached. *)

Definition M (A : Type) : Type := World -> World * result A.

Definition ret {A} (a : A) : M A := fun w => (w, inr a).

Definition throw {A} (e : error) : M A := fun w => (w, inl e).

Definition bind {A B} (m : M A) (k : A -> M B) : M B :=
  fun w => match m w with
           | (w', inr a) => k a w'
           | (w', inl e) => (w', inl e)
           end.

Definition lift {A} (r : result A) : M A := fun w => (w, r).

Definition tell (e : Event) : M unit := fun w => (emit e w, inr tt).

Definition gets {A} (f : World -> A) : M A := fun w => (w, inr (f w)).

Definition modify (f : World -> World) : M unit := fun w => (f w, inr tt).

Declare Scope cmd_scope.
Delimit Scope cmd_scope with cmd.
Notation "'do' x <- m ; k" := (bind m (fun x => k))
  (at level 10, x name, m at level 100, k at level 200) : cmd_scope.
Notation "'run' m ; k" := (bind m (fun _ => k))
  (at level 10, m at level 100, k at level 200) : cmd_scope.
Local Open Scope cmd_scope.

(** [fs.exists]: the empty path names nothing. *)
Definition exists_in (f : FS) (p : string) : bool :=
  negb (String.eqb p EmptyString)
  && (bool_decide (p ∈ dom (files f)) || bool_decide (p ∈ dirs f)).

Definition fs_exists (p : string) : M bool :=
  fun w => let b := exists_in (fs w) p in (emit (EvExists p b) w, inr b).

(** [fs.readFile]: only a regular file can be read. *)
Definition fs_readFile (p : string) : M string :=
  run tell (EvReadFile p);
  do f <- gets fs;
  match files f !! p with
  | Some text => ret text
  | None => throw IOError
  end.

(** [fs.writeFile]: a directory cannot be overwritten. *)
Definition fs_writeFile (p text : string) : M unit :=
  do f <- gets fs;
  if bool_decide (p ∈ dirs f) then throw IOError
  else run tell (EvWriteFile p text);
       modify (with_fs (mkFS (<[p := text]> (files f)) (dirs f))).

(** [mkdir(file)], that is [mkdirp]: fails when a regular file is in the
    way. *)
Definition mkdir (p : string) : M unit :=
  do f <- gets fs;
  if bool_decide (p ∈ dom (files f)) then throw IOError
  else run tell (EvMkdir p);
       modify (with_fs (mkFS (files f) ({[ p ]} ∪ dirs f))).

(* ===================================================================== *)
(** ** [lib/base_command.js] *)
(* ===================================================================== *)

Section Command.

Context `{rt : Runtime}.

(** *** Module constants *)

Definition configDir : string := path.join HOME ".projj".
Definition configPath : string := path.join configDir "config.json".
Definition cachePath : string := path.join configDir "cache.json".

(** [process.env]. *)
Definition process_env : gmap string string := <["HOME" := HOME]> ambient.

(** A variable of [process.env] inside a template literal: an unset one
    reads [undefined]. *)
Definition env_text (name : string) : string :=
  default "undefined" (process_env !! name).

Definition default_base : string := HOME ++ "/projj".

Definition defaults : gmap string json :=
  {[ "base" := JStr default_base;
     "hooks" := JObj ∅;
     "alias" := JObj {[ "github://" := JStr "https://github.com/" ]} ]}.

(** *** [resolveConfig] *)

(** [path.join(dir, v)] for a JavaScript value [v]: anything but a string
    is refused. *)
Definition join_value (dir : string) (v : jsval) : result string :=
  match v with
  | Some (JStr s) => inr (path.join dir s)
  | _ => inl TypeError
  end.

(** [v.replace('~', HOME)]: only a string has the method. *)
Definition replace_tilde (v : jsval) : result string :=
  match v with
  | Some (JStr s) => inr (String_replace s "~" HOME)
  | _ => inl TypeError
  end.

Definition resolveConfig (config defaults : jsval)
  : result (gmap string json) :=
  let config := Object_assign (Object_assign ∅ defaults) config in
  let set_base (r : result string) : result (gmap string json) :=
    match r with
    | inr b => inr (<["base" := JStr b]> config)
    | inl e => inl e
    end in
  match js_get (config !! "base") "0" with
  | inl e => inl e
  | inr (Some (JStr c)) =>
      if String.eqb c "." then
        set_base (join_value (path.dirname configPath) (config !! "base"))
      else if String.eqb c "~" then
        set_base (replace_tilde (config !! "base"))
      else if String.eqb c "/" then
        inr config
      else
        set_base (join_value process_cwd (config !! "base"))
  | inr _ =>
      set_base (join_value process_cwd (config !! "base"))
  end.


(** The partial configurations the absoluteness invariant ranges over:
    [base], when given, is a string. *)
Definition string_valued_base (partial : gmap string json) : Prop :=
  match partial !! "base" with
  | Some (JStr _) | None => True
  | Some _ => False
  end.

(** The four cases of the base, by its first character: relative to the
    configuration directory, relative to the home directory, absolute, or
    bare and relative to the current working directory. *)
Definition base_rule (s : string) : string :=
  match s with
  | String c _ =>
      if Ascii.eqb c "." then path.join (path.dirname configPath) s
      else if Ascii.eqb c "~" then String_replace s "~" HOME
      else if Ascii.eqb c "/" then s
      else path.join process_cwd s
  | EmptyString => path.join process_cwd s
  end.

(** The [base] of what a resolution returns. *)
Definition resolved_base (r : result (gmap string json)) : result jsval :=
  match r with
  | inr config => inr (config !! "base")
  | inl e => inl e
  end.

(** *** The repository index, [this.cache] *)

(** Modelled from the spec: [lib/cache.js] (the [Cache] class behind
    [this.cache]) is not among the sources.  Section 4.3: [get] loads the
    persisted index into memory on first call and, given a key, tells
    whether the key is present; [set] stages an in-memory upsert and does
    not persist; [dump] overwrites the persisted index with the in-memory
    one.  Writing the index file is a file-system write and fails like
    one (section 7). *)
Definition Cache_load : M (gmap string json) :=
  fun w => match index_mem w with
           | Some m => (w, inr m)
           | None => (with_index_mem (index_file w) w, inr (index_file w))
           end.

Definition Cache_get_all : M (gmap string json) :=
  run tell (EvCacheGet None);
  Cache_load.

Definition Cache_get (key : string) : M bool :=
  run tell (EvCacheGet (Some key));
  do m <- Cache_load;
  ret (bool_decide (is_Some (m !! key))).

Definition Cache_set (key : string) (value : json) : M unit :=
  run tell (EvCacheSet key value);
  do m <- Cache_load;
  modify (with_index_mem (<[key := value]> m)).

Definition Cache_dump : M unit :=
  do mem <- gets index_mem;
  match mem with
  | None => ret tt
  | Some m =>
      do f <- gets fs;
      if bool_decide (cachePath ∈ dirs f)
      then run tell (EvCacheDump false); throw IOError
      else run tell (EvCacheDump true); modify (with_index_file m)
  end.

(** *** [readJSON] *)

Definition readJSON (p : string) : M json :=
  do content <- fs_readFile p;
  match JSON_parse content with
  | Some v => ret v
  | None => throw SyntaxError
  end.

(** *** [loadConfig] *)

(** [this.config] where a member of it is read: [undefined] throws. *)
Definition the_config : M (gmap string json) :=
  do c <- gets this_config;
  match c with
  | Some c => ret c
  | None => throw TypeError
  end.

Definition ask_base : M unit :=
  let answer := prompt "Set base directory:" default_base in
  run tell (EvPrompt default_base answer);
  do config <- lift (resolveConfig (Some (JObj {[ "base" := JStr answer ]}))
                                   (Some (JObj defaults)));
  run modify (with_config config);
  fs_writeFile configPath (JSON_stringify 2 (JObj config)).

Definition loadConfig : M unit :=
  run mkdir configDir;
  do configExists <- fs_exists configPath;
  if configExists then
    do config <- readJSON configPath;
    do config <- lift (resolveConfig (Some config) (Some (JObj defaults)));
    (* ignore when base has been defined in ~/.projj/config *)
    if truthy (config !! "base") then modify (with_config config)
    else ask_base
  else ask_base.

Definition init : M unit :=
  run loadConfig;
  run Cache_get_all;
  ret tt.

(** *** [runScript] *)

Definition runScript (cmd : value) (opt : RunOpts) : M unit :=
  run tell (EvSpawn cmd opt);
  do f <- gets fs;
  let child := runscript cmd opt f in
  run tell (EvChildOut (exit_stdout child));
  run modify (with_fs (exit_fs child));
  match exit_error child with
  | None => tell (EvExit cmd true)
  | Some err =>
      run tell (EvExit cmd false);
      match err with
      | ProcessError (Some stderr) =>
          run tell (EvChildInfo stderr); throw err
      | ProcessError None => throw err
      | _ => throw TypeError       (* err.stdio is undefined *)
      end
  end.

(** *** [runHook] *)

(** [path.join(this.config.base, key)]. *)
Definition join_base (config : gmap string json) (key : string)
  : result string :=
  match config !! "base" with
  | Some (JStr b) => inr (path.join b key)
  | _ => inl TypeError
  end.

(** Whether [v[k]] finds a member on the prototype chain of [v]. *)
Definition inherits (v : json) (k : string) : bool :=
  match v with
  | JNull => false
  | JObj _ => in_Object_prototype k
  | _ => existsb (String.eqb k) (prototype_names v) || in_Object_prototype k
  end.

(** [v[k]] for a name [k]: the own member when there is one, else the
    inherited one, else [undefined]. *)
Definition js_member (v : jsval) (k : string) : result (option value) :=
  match js_get v k with
  | inl e => inl e
  | inr (Some own) => inr (Some (Json own))
  | inr None =>
      match v with
      | Some r => inr (if inherits r k then Some (Inherited r k) else None)
      | None => inr None
      end
  end.

(** [JSON.stringify(this.config[name])]: the text of a JSON value;
    [undefined] for a function; and for [Object.prototype], which
    [__proto__] gives and which has no enumerable member, the text of an
    object without members. *)
Definition stringify_member (v : value) : option string :=
  match v with
  | Json j => Some (JSON_stringify 0 j)
  | Inherited _ k =>
      if String.eqb k "__proto__" then Some (JSON_stringify 0 (JObj ∅))
      else None
  end.

(** What [this.config[name]] makes of [env.PROJJ_HOOK_CONFIG]: nothing
    when it is falsy, else its serialization, which can be [undefined]. *)
Definition hook_config_member (config : gmap string json) (name : string)
  : option (option string) :=
  match js_member (Some (JObj config)) name with
  | inr (Some v) =>
      if value_truthy (Some v) then Some (stringify_member v) else None
  | _ => None
  end.

(** The object [env] of [runHook]; a member holds a text or
    [undefined]. *)
Definition hook_env (config : gmap string json) (name : string)
  : gmap string (option string) :=
  let env : gmap string (option string) :=
    {[ "PATH" := Some (configDir ++ "/hooks:" ++ env_text "PATH");
       "PROJJ_HOOK_NAME" := Some name ]} in
  match hook_config_member config name with
  | Some text => <["PROJJ_HOOK_CONFIG" := text]> env
  | None => env
  end.

(** [Object.assign({}, process.env, env)], as variables are read off it:
    a member of [env] wins, also when it holds [undefined]. *)
Definition env_assign (base : gmap string string)
    (env : gmap string (option string)) : gmap string string :=
  merge (fun member ambient_value =>
           match member with
           | Some v => v
           | None => ambient_value
           end) env base.

Definition runHook (name cacheKey : string) : M unit :=
  do config <- the_config;
  do hook <- lift (js_member (config !! "hooks") name);
  match hook with
  | None => ret tt
  | Some cmd =>
      if negb (value_truthy hook) then ret tt
      else
        let env := hook_env config name in
        let env := env_assign process_env env in
        do known <- Cache_get cacheKey;
        do cwd <- (if known
                   then lift (join_base config cacheKey)
                   else ret cacheKey);
        do on_disk <- (if String.eqb cwd EmptyString then ret false
                       else fs_exists cwd);
        let opt := mkOpts env (if on_disk then Some cwd else None) in
        run tell (EvInfo ("Run hook " ++ name ++ " for " ++ cacheKey));
        runScript cmd opt
  end.

(** *** [url2dir] *)

Definition url2dir (url : string) : string :=
  let url := giturl_parse url in
  strip_scheme url.

(** *** [addRepo] *)

Definition clone_command (repo targetPath : string) : string :=
  "git clone " ++ repo ++ " " ++ targetPath ++ " > /dev/null".

(** [Object.assign({ GIT_SSH: ... }, process.env)]: the process
    environment wins. *)
Definition clone_env : gmap string string :=
  process_env ∪ {[ "GIT_SSH" := path.join lib_dirname "ssh.js" ]}.

Definition addRepo (repo cacheKey : string) : M unit :=
  (* preadd hook *)
  run runHook "preadd" cacheKey;
  do config <- the_config;
  do targetPath <- lift (join_base config cacheKey);
  run tell (EvInfo ("Cloning into " ++ targetPath));
  run runScript (JStr (clone_command repo targetPath)) (mkOpts clone_env None);
  (* add this repository to cache.json *)
  run Cache_set cacheKey (JObj {[ "repo" := JStr repo ]});
  run Cache_dump;
  (* preadd hook *)
  runHook "postadd" cacheKey.

(** *** The steps of the add workflow, read off a trace *)

(** A step of the workflow: a subprocess started with a command and an
    environment, an index upsert, an index flush. *)
Inductive Step : Type :=
  | StepRun (cmd : value) (env : gmap string string)
  | StepSet (key : string) (value : json)
  | StepDump.

Definition step_of (e : Event) : option Step :=
  match e with
  | EvSpawn cmd opt => Some (StepRun cmd (opt_env opt))
  | EvCacheSet key value => Some (StepSet key value)
  | EvCacheDump _ => Some StepDump
  | _ => None
  end.

Definition steps (t : list Event) : list Step := omap step_of t.

(** The events that report a failed step. *)
Definition is_failure (e : Event) : bool :=
  match e with
  | EvExit _ false | EvCacheDump false => true
  | _ => false
  end.

(** The command a configured hook runs: what [hooks[name]] gives, when
    it is truthy. *)
Definition hook_command (config : gmap string json) (name : string)
  : option value :=
  match js_member (config !! "hooks") name with
  | inr (Some cmd) => if value_truthy (Some cmd) then Some cmd else None
  | _ => None
  end.

Definition hook_step (config : gmap string json) (name : string)
  : list Step :=
  match hook_command config name with
  | Some cmd => [StepRun cmd (env_assign process_env (hook_env config name))]
  | None => []
  end.

(** start -> preadd-hook -> clone -> index-update -> flush ->
    postadd-hook -> done. *)
Definition workflow (config : gmap string json) (base repo key : string)
  : list Step :=
  hook_step config "preadd"
  ++ [ StepRun (JStr (clone_command repo (path.join base key))) clone_env;
       StepSet key (JObj {[ "repo" := JStr repo ]});
       StepDump ]
  ++ hook_step config "postadd".

(** *** Vocabulary for the statements below *)

Definition exit_ok (child : Exit) : bool :=
  match exit_error child with
  | None => true
  | Some _ => false
  end.

(** What [runScript] adds to the trace, and what it returns. *)
Definition script_events (cmd : value) (opt : RunOpts) (child : Exit)
  : list Event :=
  [ EvSpawn cmd opt; EvChildOut (exit_stdout child);
    EvExit cmd (exit_ok child) ]
  ++ match exit_error child with
     | Some (ProcessError (Some stderr)) => [EvChildInfo stderr]
     | _ => []
     end.

Definition script_result (child : Exit) : result unit :=
  match exit_error child with
  | None => inr tt
  | Some (ProcessError stderr) => inl (ProcessError stderr)
  | Some _ => inl TypeError
  end.

(** The working directory [runHook] tries, the options it builds and
    what it adds to the trace before the subprocess starts. *)
Definition hook_cwd (w : World) (base key : string) : string :=
  if bool_decide (is_Some (index w !! key)) then path.join base key else key.

Definition hook_opt (w : World) (config : gmap string json)
    (base name key : string) : RunOpts :=
  let cwd := hook_cwd w base key in
  mkOpts (env_assign process_env (hook_env config name))
         (if exists_in (fs w) cwd then Some cwd else None).

Definition hook_prelude (w : World) (base name key : string) : list Event :=
  let cwd := hook_cwd w base key in
  [EvCacheGet (Some key)]
  ++ (if String.eqb cwd EmptyString then []
      else [EvExists cwd (exists_in (fs w) cwd)])
  ++ [EvInfo ("Run hook " ++ name ++ " for " ++ key)].

Definition clone_cmd (repo base key : string) : json :=
  JStr (clone_command repo (path.join base key)).

Definition clone_opt : RunOpts := mkOpts clone_env None.

Definition clone_events (repo base key : string) (child : Exit)
  : list Event :=
  EvInfo ("Cloning into " ++ path.join base key)
  :: script_events (clone_cmd repo base key) clone_opt child.

Definition index_entry (repo : string) : json :=
  JObj {[ "repo" := JStr repo ]}.

Definition is_step (e : Event) : bool :=
  match step_of e with
  | Some _ => true
  | None => false
  end.

Definition is_ok {A} (r : result A) : bool :=
  match r with
  | inr _ => true
  | inl _ => false
  end.

(** Nothing is done after a failed step, and a run with a failed step
    does not return normally. *)
Fixpoint stops_at_failure (t : list Event) (ok : bool) : bool :=
  match t with
  | [] => true
  | e :: t' =>
      if is_failure e
      then negb ok && forallb (fun e' => negb (is_step e')) t'
      else stops_at_failure t' ok
  end.

Definition no_failure (t : list Event) : Prop :=
  Forall (fun e => is_failure e = false) t.

(** A part of the workflow that was run: the steps it shows, and how it
    ended. *)
Definition part (expected : list Step) (new : list Event) (r : result unit)
  : Prop :=
  steps new = expected
  /\ (is_ok r = true -> no_failure new)
  /\ stops_at_failure new (is_ok r) = true.

(** *** [run] *)

(** What [run] leaves on the console: the line of [consoleLogger.info],
    or the line [this.error] prints for the error caught (its message). *)
Inductive Console : Type :=
  | ConsoleInfo (line : string)
  | ConsoleError (err : error).

(** How a command ends: the world it leaves, its console line, and the
    status [process.exit] was called with, if it was. *)
Record Ended : Type := mkEnded {
  final : World;
  console : list Console;
  exit_status : option nat;
}.

(** [run(cwd, args)], for a subcommand whose [_run(cwd, args)] is
    [body]. *)
Definition Command_run (body : M unit) (w : World) : Ended :=
  match (run init; body) w with
  | (w', inr _) => mkEnded w' [ConsoleInfo "✨  Done"] None
  | (w', inl err) => mkEnded w' [ConsoleError err] (Some 1)
  end.

(** The events of a subprocess that ended with the error [err]. *)
Definition failure_events (cmd : value) (opt : RunOpts) (stdout : string)
    (stderr : option string) : list Event :=
  [EvSpawn cmd opt; EvChildOut stdout; EvExit cmd false]
  ++ match stderr with
     | Some text => [EvChildInfo text]
     | None => []
     end.

End Command.

(* ===================================================================== *)
(** ** A concrete runtime and concrete worlds, to run the model on *)
(* ===================================================================== *)

Module Sample.

(** A serializer that is exact on scalars; arrays and objects are
    abbreviated to their brackets (no example reads the text). *)
Definition stringify (indent : nat) (v : json) : string :=
  match v with
  | JNull => "null"
  | JBool true => "true"
  | JBool false => "false"
  | JNum n => pretty n
  | JStr s => String (ascii_of_nat 34) (s ++ String (ascii_of_nat 34) EmptyString)
  | JArr _ => "[]"
  | JObj _ => "{}"
  end.

(** A parser for the one text the examples store. *)
Definition parse (text : string) : option json :=
  if String.eqb text "{}" then Some (JObj ∅) else None.

(** The built-in prototypes of ECMAScript 2015, Annex B included. *)
Definition Array_prototype : list string :=
  [ "concat"; "constructor"; "copyWithin"; "entries"; "every"; "fill";
    "filter"; "find"; "findIndex"; "forEach"; "indexOf"; "join"; "keys";
    "lastIndexOf"; "map"; "pop"; "push"; "reduce"; "reduceRight";
    "reverse"; "shift"; "slice"; "some"; "sort"; "splice";
    "toLocaleString"; "toString"; "unshift"; "values" ].

Definition String_prototype : list string :=
  [ "anchor"; "big"; "blink"; "bold"; "charAt"; "charCodeAt";
    "codePointAt"; "concat"; "constructor"; "endsWith"; "fixed";
    "fontcolor"; "fontsize"; "includes"; "indexOf"; "italics";
    "lastIndexOf"; "link"; "localeCompare"; "match"; "normalize";
    "repeat"; "replace"; "search"; "slice"; "small"; "split";
    "startsWith"; "strike"; "sub"; "substr"; "substring"; "sup";
    "toLocaleLowerCase"; "toLocaleUpperCase"; "toLowerCase"; "toString";
    "toUpperCase"; "trim"; "valueOf" ].

Definition Number_prototype : list string :=
  [ "constructor"; "toExponential"; "toFixed"; "toLocaleString";
    "toPrecision"; "toString"; "valueOf" ].

Definition Boolean_prototype : list string :=
  [ "constructor"; "toString"; "valueOf" ].

Definition prototypes (v : json) : list string :=
  match v with
  | JArr _ => Array_prototype
  | JStr _ => String_prototype
  | JNum _ => Number_prototype
  | JBool _ => Boolean_prototype
  | JNull | JObj _ => []
  end.

(** A subprocess runner: [git clone] succeeds or fails as [clone_ok]
    says and creates nothing; [echo pre] prints; [false] fails; any other
    text succeeds silently, and what is not a text is refused. *)
Definition spawn (clone_ok : bool) (cmd : value) (opt : RunOpts) (f : FS)
  : Exit :=
  match cmd with
  | Json (JStr c) =>
      if String.prefix "git clone " c then
        if clone_ok then mkExit EmptyString None f
        else mkExit EmptyString (Some (ProcessError (Some "fatal: failed"))) f
      else if String.eqb c "echo pre" then mkExit "pre" None f
      else if String.eqb c "false" then mkExit EmptyString (Some (ProcessError None)) f
      else mkExit EmptyString None f
  | _ => mkExit EmptyString (Some TypeError) f
  end.

Definition runtime (home : string) (clone_ok : bool) : Runtime :=
  {| HOME := home;
     ambient := {[ "PATH" := "/usr/bin" ]};
     process_cwd := "/srv/work";
     lib_dirname := "/opt/projj/lib";
     runscript := spawn clone_ok;
     prompt := fun _ default => default;
     JSON_parse := parse;
     JSON_stringify := stringify;
     giturl_parse := fun url => url;
     prototype_names := prototypes |}.

Definition no_files : FS := mkFS ∅ ∅.

(** A command instance whose configuration is [config], with an index
    already holding [entries] on disk and nothing loaded. *)
Definition world (config : gmap string json) (entries : gmap string json)
  : World :=
  mkWorld no_files entries None (Some config) [].

Definition config_plain : gmap string json :=
  {[ "base" := JStr "/work"; "hooks" := JObj ∅; "alias" := JObj ∅ ]}.

Definition config_preadd : gmap string json :=
  {[ "base" := JStr "/work";
     "hooks" := JObj {[ "preadd" := JStr "echo pre" ]};
     "alias" := JObj ∅ ]}.


Definition repo_url : string := "https://example.com/org/repo".
Definition repo_key : string := "example.com/org/repo".

(** An index that already knows the repository. *)
Definition known : gmap string json :=
  {[ repo_key := JObj {[ "repo" := JStr repo_url ]} ]}.

(** A fresh command instance in the home directory [/home/u], with a
    configuration file holding [text]. *)
Definition world_with_config_file (text : string) : World :=
  mkWorld (mkFS {[ "/home/u/.projj/config.json" := text ]}
                {[ "/home/u/.projj" ]})
          ∅ None None [].

Definition rt_ok : Runtime := runtime "/home/u" true.
Definition rt_clone_fails : Runtime := runtime "/home/u" false.
Definition rt_dollar : Runtime := runtime "/home/a$$b" true.

(** A runtime that writes every configuration as the text [saved] and
    reads that text back as the configuration a first run in [/home/u]
    produces. *)
Definition saved_config : gmap string json :=
  {[ "base" := JStr "/home/u/projj";
     "hooks" := JObj ∅;
     "alias" := JObj {[ "github://" := JStr "https://github.com/" ]} ]}.

Definition rt_saved : Runtime :=
  {| HOME := "/home/u";
     ambient := {[ "PATH" := "/usr/bin" ]};
     process_cwd := "/srv/work";
     lib_dirname := "/opt/projj/lib";
     runscript := spawn true;
     prompt := fun _ default => default;
     JSON_parse := fun text =>
       if String.eqb text "saved" then Some (JObj saved_config) else None;
     JSON_stringify := fun _ _ => "saved";
     giturl_parse := fun url => url;
     prototype_names := prototypes |}.

(** A fresh command instance on an empty disk. *)
Definition fresh : World := mkWorld no_files ∅ None None [].

(** Hooks before and after the add; the postadd hook fails. *)
Definition config_hooks : gmap string json :=
  {[ "base" := JStr "/work";
     "hooks" := JObj {[ "preadd" := JStr "echo pre";
                        "postadd" := JStr "false" ]} ]}.

(** The preadd hook fails. *)
Definition config_preadd_fails : gmap string json :=
  {[ "base" := JStr "/work";
     "hooks" := JObj {[ "preadd" := JStr "false" ]} ]}.

(** A preadd hook that is the empty string. *)
Definition config_empty_hook : gmap string json :=
  {[ "base" := JStr "/work";
     "hooks" := JObj {[ "preadd" := JStr EmptyString ]} ]}.

(** A configuration file that is not JSON. *)
Definition world_with_bad_file : World := world_with_config_file "not json".

(** A runtime whose giturl gives the web address of a repository under
    the scheme [http], whatever scheme the URL came with. *)
Definition rt_web (clone_ok : bool) : Runtime :=
  {| HOME := "/home/u";
     ambient := {[ "PATH" := "/usr/bin" ]};
     process_cwd := "/srv/work";
     lib_dirname := "/opt/projj/lib";
     runscript := spawn clone_ok;
     prompt := fun _ default => default;
     JSON_parse := parse;
     JSON_stringify := stringify;
     giturl_parse := fun url => "http://" ++ strip_scheme url;
     prototype_names := prototypes |}.

(** A process started from inside a hook: its environment holds the
    [PROJJ_HOOK_CONFIG] of that hook. *)
Definition rt_nested : Runtime :=
  {| HOME := "/home/u";
     ambient := {[ "PATH" := "/usr/bin"; "PROJJ_HOOK_CONFIG" := "{}" ]};
     process_cwd := "/srv/work";
     lib_dirname := "/opt/projj/lib";
     runscript := spawn true;
     prompt := fun _ default => default;
     JSON_parse := parse;
     JSON_stringify := stringify;
     giturl_parse := fun url => url;
     prototype_names := prototypes |}.

(** A hook named [toString]; the configuration has no entry under that
    name. *)
Definition config_toString : gmap string json :=
  {[ "base" := JStr "/work";
     "hooks" := JObj {[ "toString" := JStr "echo pre" ]} ]}.

(** A hooks table as [JSON.parse] gives it for a file that names a hook
    [__proto__]; the configuration has no entry under that name. *)
Definition config_proto : gmap string json :=
  {[ "base" := JStr "/work";
     "hooks" := JObj {[ "__proto__" := JStr "echo pre" ]} ]}.

End Sample.

(* ===================================================================== *)
(** ** Properties *)
(* ===================================================================== *)

(** *** Paths *)

Lemma isAbsolute_cons p :
  path.isAbsolute p = true -> exists t, p = String path.slash t.
Proof.
  destruct p as [|c t]; simpl; [discriminate|].
  intros Hc. apply Ascii.eqb_eq in Hc. subst c. by exists t.
Qed.

Lemma normalize_absolute p :
  path.isAbsolute p = true -> path.isAbsolute (path.normalize p) = true.
Proof.
  intros Hp. destruct (isAbsolute_cons p Hp) as [t ->].
  unfold path.normalize. rewrite Hp. reflexivity.
Qed.

Lemma join_absolute a b :
  path.isAbsolute a = true -> path.isAbsolute (path.join a b) = true.
Proof.
  intros Ha. destruct (isAbsolute_cons a Ha) as [t ->].
  unfold path.join. destruct b; apply normalize_absolute; reflexivity.
Qed.

Lemma dirname_absolute p :
  path.isAbsolute p = true -> path.isAbsolute (path.dirname p) = true.
Proof.
  intros Hp. destruct (isAbsolute_cons p Hp) as [t ->].
  unfold path.dirname. rewrite Ascii.eqb_refl.
  destruct (path.drop_while _ _) as [|c kept]; [reflexivity|].
  simpl. destruct (length kept =? 0)%nat; reflexivity.
Qed.

Lemma normalize_nonempty p : path.normalize p <> EmptyString.
Proof.
  unfold path.normalize. destruct p as [|c t]; [discriminate|].
  destruct (path.isAbsolute (String c t)); [discriminate|].
  set (body := path.concat_with_slash _).
  destruct (String.eqb body EmptyString) eqn:Hbody; simpl.
  - destruct (path.ends_with_slash _); discriminate.
  - rewrite Hbody. simpl. apply String.eqb_neq in Hbody.
    destruct (path.ends_with_slash _); [|done].
    destruct body; [done|discriminate].
Qed.

Lemma join_nonempty a b : path.join a b <> EmptyString.
Proof.
  unfold path.join. destruct a, b; try apply normalize_nonempty. discriminate.
Qed.

(** *** Strings *)

Lemma pretty_zero : pretty 0 = "0".
Proof. reflexivity. Qed.

Lemma substring_all s : String.substring 0 (String.length s) s = s.
Proof. induction s as [|c s IH]; simpl; [done|by rewrite IH]. Qed.

Lemma js_get_first_char c t :
  js_get (Some (JStr (String c t))) "0" = inr (Some (JStr (String c EmptyString))).
Proof. reflexivity. Qed.

Lemma js_get_string_inv s v :
  js_get (Some (JStr s)) "0" = inr (Some v) ->
  exists c t, s = String c t /\ v = JStr (String c EmptyString).
Proof.
  destruct s as [|c t].
  - discriminate.
  - rewrite js_get_first_char. intros [= <-]. eauto.
Qed.

Lemma find_first_head c t :
  find_first (String c EmptyString) (String c t) = Some (EmptyString, t).
Proof.
  simpl. destruct (ascii_dec c c) as [_|Hc]; [|done].
  destruct t; simpl; [done|].
  by rewrite substring_all.
Qed.

Lemma GetSubstitution_plain m b a r :
  no_dollar r = true -> GetSubstitution m b a r = r.
Proof.
  unfold no_dollar. induction r as [|c r IH]; simpl; [done|].
  intros [Hc Hr]%andb_true_iff. apply negb_true_iff in Hc. rewrite Hc.
  by rewrite IH.
Qed.

Lemma GetSubstitution_absolute m b a r :
  path.isAbsolute r = true ->
  path.isAbsolute (GetSubstitution m b a r ++ a) = true.
Proof.
  intros Hr. destruct (isAbsolute_cons r Hr) as [t ->]. reflexivity.
Qed.

(** The tilde case of [resolveConfig] on a base that starts with a tilde:
    the tilde gives way to the expansion of [HOME] as a replacement text. *)
Lemma String_replace_tilde (home t : string) :
  String_replace (String "~" t) "~" home
  = GetSubstitution "~" EmptyString t home ++ t.
Proof. unfold String_replace. by rewrite find_first_head. Qed.

(** *** Finite maps *)

Lemma union_absorb (m x : gmap string json) : (m ∪ x) ∪ x = m ∪ x.
Proof.
  apply map_eq; intros k. rewrite !lookup_union.
  destruct (m !! k), (x !! k); reflexivity.
Qed.

Lemma insert_union_absorb (m x : gmap string json) k v :
  <[k := v]> (m ∪ x) ∪ x = <[k := v]> (m ∪ x).
Proof.
  apply map_eq; intros i. rewrite lookup_union.
  destruct (decide (k = i)) as [->|Hne].
  - rewrite lookup_insert_eq. by destruct (x !! i).
  - rewrite lookup_insert_ne by done. rewrite lookup_union.
    destruct (m !! i), (x !! i); reflexivity.
Qed.

(** *** [resolveConfig] *)

Section ResolveConfig.

Context `{rt : Runtime}.

(** The environment of a process: [HOME] is the absolute path of the
    user's home directory and [process.cwd()] is an absolute path. *)
Hypothesis HOME_absolute : path.isAbsolute HOME = true.
Hypothesis cwd_absolute : path.isAbsolute process_cwd = true.

Lemma configPath_absolute : path.isAbsolute configPath = true.
Proof. unfold configPath, configDir. by do 2 apply join_absolute. Qed.

Lemma defaults_base :
  defaults !! "base" = Some (JStr (HOME ++ "/projj")).
Proof. unfold defaults. by rewrite lookup_insert_eq. Qed.

Lemma default_base_absolute : path.isAbsolute (HOME ++ "/projj") = true.
Proof. destruct (isAbsolute_cons _ HOME_absolute) as [t ->]. reflexivity. Qed.

(** What a successful resolution returns: the merged object, whose
    [base] reads a slash at position 0. *)
Lemma resolveConfig_result (config defs : jsval) (r : gmap string json) :
  resolveConfig config defs = inr r ->
  r ∪ (own_members defs ∪ ∅) = r
  /\ js_get (r !! "base") "0" = inr (Some (JStr "/"))
  /\ truthy (r !! "base") = true.
Proof.
  unfold resolveConfig, Object_assign. cbv beta zeta.
  set (m := own_members config ∪ (own_members defs ∪ ∅)).
  assert (Habs : forall b, path.isAbsolute b = true ->
            (<["base" := JStr b]> m) ∪ (own_members defs ∪ ∅)
              = <["base" := JStr b]> m
            /\ js_get (<["base" := JStr b]> m !! "base") "0"
               = inr (Some (JStr "/"))
            /\ truthy (<["base" := JStr b]> m !! "base") = true).
  { intros b Hb. split; [apply insert_union_absorb|].
    rewrite lookup_insert_eq.
    destruct (isAbsolute_cons b Hb) as [t ->]. by split. }
  assert (Hjoin : forall dir v b, path.isAbsolute dir = true ->
            join_value dir v = inr b -> path.isAbsolute b = true).
  { intros dir v b Hdir. destruct v as [[]|]; simpl; try done.
    intros [= <-]. by apply join_absolute. }
  destruct (js_get (m !! "base") "0") as [e|c0] eqn:Hget; [done|].
  assert (Hdefault :
    match join_value process_cwd (m !! "base") with
    | inr b => inr (<["base" := JStr b]> m)
    | inl e => inl e
    end = inr r ->
    r ∪ (own_members defs ∪ ∅) = r
    /\ js_get (r !! "base") "0" = inr (Some (JStr "/"))
    /\ truthy (r !! "base") = true).
  { destruct (join_value process_cwd (m !! "base")) as [e|b] eqn:Hb;
      [done|].
    intros [= <-]. apply Habs. eapply Hjoin; [apply cwd_absolute|done]. }
  destruct c0 as [[| | |c| |]|]; try exact Hdefault.
  destruct (String.eqb c ".") eqn:Hdot.
  { destruct (join_value (path.dirname configPath) (m !! "base"))
      as [e|b] eqn:Hb; [done|].
    intros [= <-]. apply Habs. eapply Hjoin; [|done].
    apply dirname_absolute, configPath_absolute. }
  destruct (String.eqb c "~") eqn:Htilde.
  { apply String.eqb_eq in Htilde. subst c.
    destruct (m !! "base") as [[| | |s| |]|] eqn:Hbase; try done.
    simpl. intros [= <-]. apply Habs.
    destruct (js_get_string_inv _ _ Hget) as (a & t & -> & [= <-]).
    rewrite String_replace_tilde. by apply GetSubstitution_absolute. }
  destruct (String.eqb c "/") eqn:Hslash; [|exact Hdefault].
  apply String.eqb_eq in Hslash. subst c. intros [= <-].
  split; [apply union_absorb|]. split; [done|].
  destruct (m !! "base") as [[| | |s| |]|]; try done.
  by destruct (js_get_string_inv _ _ Hget) as (a & t & -> & _).
Qed.

(** Resolving the result of a resolution changes nothing. *)
Lemma resolveConfig_again (config defs : jsval) (r : gmap string json) :
  resolveConfig config defs = inr r ->
  resolveConfig (Some (JObj r)) defs = inr r.
Proof.
  intros Hr. destruct (resolveConfig_result _ _ _ Hr) as (Hmerge & Hget & _).
  unfold resolveConfig, Object_assign. cbv beta zeta.
  change (own_members (Some (JObj r))) with r.
  rewrite Hmerge, Hget. reflexivity.
Qed.


(** C3. After resolution [base] is an absolute path: for every partial
    configuration whose [base] is a string (or is left to the defaults),
    whether it starts with a dot, a tilde, a slash or none of these,
    [resolveConfig] returns and the [base] of its result is a string
    that is an absolute path. *)
Theorem resolveConfig_base_absolute (partial : gmap string json) :
  string_valued_base partial ->
  exists config b,
    resolveConfig (Some (JObj partial)) (Some (JObj defaults)) = inr config
    /\ config !! "base" = Some (JStr b)
    /\ path.isAbsolute b = true.
Proof.
  intros Hstr.
  assert (Hbase : exists s,
    (Object_assign (Object_assign ∅ (Some (JObj defaults)))
                   (Some (JObj partial))) !! "base" = Some (JStr s)).
  { unfold Object_assign, string_valued_base in *. simpl.
    rewrite lookup_union.
    destruct (partial !! "base") as [[| | |s| |]|]; try done.
    - exists s. by destruct ((defaults ∪ ∅) !! "base").
    - rewrite lookup_union, defaults_base. eauto. }
  destruct Hbase as [s Hbase].
  assert (Hreturns : exists config,
    resolveConfig (Some (JObj partial)) (Some (JObj defaults)) = inr config
    /\ exists b, config !! "base" = Some (JStr b)).
  { unfold resolveConfig. cbv beta zeta. rewrite Hbase.
    destruct s as [|c t].
    - simpl. eexists. split; [done|]. rewrite lookup_insert_eq. eauto.
    - rewrite js_get_first_char. unfold join_value, replace_tilde.
      repeat match goal with
             | |- context [String.eqb ?a ?b] => destruct (String.eqb a b)
             end;
        eexists; (split; [reflexivity|]);
        rewrite ?lookup_insert_eq; eauto. }
  destruct Hreturns as (config & Hr & b & Hb).
  exists config, b. split; [done|]. split; [done|].
  destruct (resolveConfig_result _ _ _ Hr) as (_ & Hget & _).
  rewrite Hb in Hget.
  destruct (js_get_string_inv _ _ Hget) as (a & t & -> & [= <-]).
  reflexivity.
Qed.

End ResolveConfig.

(** *** Subprocesses and hooks *)

Section Hooks.

Context `{rt : Runtime}.

Lemma runScript_eq cmd opt w :
  runScript cmd opt w =
  let child := runscript cmd opt (fs w) in
  (mkWorld (exit_fs child) (index_file w) (index_mem w) (this_config w)
           (trace w ++ script_events cmd opt child),
   script_result child).
Proof.
  unfold runScript, script_events, script_result, exit_ok, bind, tell, gets,
    modify, throw, emit, with_fs. simpl.
  destruct (exit_error _) as [[| | |[stderr|]]|]; simpl;
    rewrite <- ?app_assoc; reflexivity.
Qed.

(** A member read on an object: its own member, else the one of
    [Object.prototype]. *)
Lemma js_member_object (m : gmap string json) (k : string) :
  js_member (Some (JObj m)) k
  = inr (match m !! k with
         | Some own => Some (Json own)
         | None => if in_Object_prototype k
                   then Some (Inherited (JObj m) k) else None
         end).
Proof. unfold js_member. simpl. by destruct (m !! k). Qed.

(** A name that objects do not inherit is read off the own members. *)
Lemma js_member_own (m : gmap string json) (k : string) :
  in_Object_prototype k = false ->
  js_member (Some (JObj m)) k = inr (Json <$> m !! k).
Proof.
  intros Hk. rewrite js_member_object, Hk. by destruct (m !! k).
Qed.

Lemma hook_command_Some config name cmd :
  hook_command config name = Some cmd ->
  js_member (config !! "hooks") name = inr (Some cmd)
  /\ value_truthy (Some cmd) = true.
Proof.
  unfold hook_command.
  destruct (js_member _ _) as [e|[v|]]; try discriminate.
  destruct (value_truthy (Some v)) eqn:Hv; [|discriminate].
  by intros [= <-].
Qed.

(** A configured hook: index read, directory test, log line, then the
    subprocess. *)
Lemma runHook_configured w config base name key cmd :
  this_config w = Some config ->
  config !! "base" = Some (JStr base) ->
  hook_command config name = Some cmd ->
  runHook name key w =
  let opt := hook_opt w config base name key in
  let child := runscript cmd opt (fs w) in
  (mkWorld (exit_fs child) (index_file w) (Some (index w)) (Some config)
           (trace w ++ hook_prelude w base name key
                    ++ script_events cmd opt child),
   script_result child).
Proof.
  intros Hc Hb [Hget Htruthy]%hook_command_Some.
  unfold runHook, the_config, bind at 1 2, gets. rewrite Hc.
  unfold bind at 1, ret at 1, lift at 1. rewrite Hget, Htruthy.
  change (negb true) with false. cbv iota beta zeta.
  unfold hook_opt, hook_prelude, hook_cwd, index, Cache_get, Cache_load,
    join_base, fs_exists, bind, tell, lift, ret, emit, with_index_mem.
  rewrite Hb. destruct w as [f ifile imem cfg tr]; simpl in *. subst cfg.
  assert (Hj : String.eqb (path.join base key) EmptyString = false)
    by apply String.eqb_neq, join_nonempty.
  destruct imem as [m|]; simpl;
    destruct (bool_decide (is_Some (_ !! key))); simpl; rewrite ?Hj;
    try destruct (String.eqb key EmptyString) eqn:Hk; simpl;
    rewrite runScript_eq; simpl;
    unfold exists_in; rewrite ?Hk; simpl;
    rewrite <- ?app_assoc; reflexivity.
Qed.

(** A hook that is not configured: nothing happens. *)
Lemma runHook_not_configured w config name key v :
  this_config w = Some config ->
  js_member (config !! "hooks") name = inr v ->
  value_truthy v = false ->
  runHook name key w = (w, inr tt).
Proof.
  intros Hc Hget Hv.
  unfold runHook, the_config, bind at 1 2, gets. rewrite Hc.
  unfold bind at 1, ret at 1, lift at 1. rewrite Hget.
  destruct v as [cmd|]; [|reflexivity].
  rewrite Hv. reflexivity.
Qed.

Lemma runHook_no_table w config name key e :
  this_config w = Some config ->
  js_member (config !! "hooks") name = inl e ->
  runHook name key w = (w, inl e).
Proof.
  intros Hc Hget.
  unfold runHook, the_config, bind at 1 2, gets. rewrite Hc.
  unfold bind at 1, ret at 1, lift at 1. rewrite Hget. reflexivity.
Qed.

(** The three ways [runHook] can go. *)
Lemma runHook_cases w config base name key :
  this_config w = Some config ->
  config !! "base" = Some (JStr base) ->
  (exists cmd, hook_command config name = Some cmd
     /\ runHook name key w =
        let opt := hook_opt w config base name key in
        let child := runscript cmd opt (fs w) in
        (mkWorld (exit_fs child) (index_file w) (Some (index w))
                 (Some config)
                 (trace w ++ hook_prelude w base name key
                          ++ script_events cmd opt child),
         script_result child))
  \/ (hook_command config name = None
      /\ exists r, runHook name key w = (w, r)).
Proof.
  intros Hc Hb. destruct (hook_command config name) as [cmd|] eqn:Hcmd.
  - left. exists cmd. split; [done|]. by apply runHook_configured.
  - right. split; [done|]. unfold hook_command in Hcmd.
    destruct (js_member (config !! "hooks") name) as [e|v] eqn:Hget.
    + exists (inl e). by eapply runHook_no_table.
    + exists (inr tt). eapply runHook_not_configured; [done..|].
      destruct v as [cmd|]; [|done].
      by destruct (value_truthy (Some cmd)).
Qed.

Lemma steps_hook_prelude w base name key :
  steps (hook_prelude w base name key) = [].
Proof.
  unfold hook_prelude. by destruct (String.eqb _ EmptyString).
Qed.

Lemma script_events_split cmd opt child :
  exists post,
    script_events cmd opt child = EvSpawn cmd opt :: post /\ steps post = [].
Proof.
  unfold script_events. eexists. split; [reflexivity|].
  by destruct (exit_error child) as [[| | |[stderr|]]|].
Qed.

(** A configured hook starts exactly one subprocess, with the options
    [hook_opt] builds. *)
Lemma runHook_spawn w config base name key cmd :
  this_config w = Some config ->
  config !! "base" = Some (JStr base) ->
  hook_command config name = Some cmd ->
  exists w' r pre post,
    runHook name key w = (w', r)
    /\ trace w' = (trace w ++ pre
                    ++ EvSpawn cmd (hook_opt w config base name key) :: post)%list
    /\ steps pre = [] /\ steps post = [].
Proof.
  intros Hc Hb Hcmd. rewrite (runHook_configured _ _ _ _ _ _ Hc Hb Hcmd).
  cbv zeta.
  destruct (script_events_split cmd (hook_opt w config base name key)
              (runscript cmd (hook_opt w config base name key) (fs w)))
    as (post & -> & Hpost).
  eexists _, _, (hook_prelude w base name key), post.
  split; [reflexivity|]. split; [reflexivity|].
  split; [apply steps_hook_prelude|done].
Qed.




(** A name that objects inherit and that the hooks table does not hold
    itself: the inherited member is taken for the hook. *)
Lemma hook_command_inherited config hooks name :
  config !! "hooks" = Some (JObj hooks) ->
  hooks !! name = None ->
  in_Object_prototype name = true ->
  hook_command config name = Some (Inherited (JObj hooks) name).
Proof.
  intros Hhooks Hname Hproto. unfold hook_command.
  by rewrite Hhooks, js_member_object, Hname, Hproto.
Qed.

(** Under such a name a configuration without an entry of its own gives
    the inherited member to [JSON.stringify]: [PROJJ_HOOK_CONFIG] is
    assigned [undefined] for a function, and the text of an empty object
    for [__proto__]. *)
Lemma hook_config_member_inherited config name :
  config !! name = None ->
  in_Object_prototype name = true ->
  hook_config_member config name
  = Some (if String.eqb name "__proto__"
          then Some (JSON_stringify 0 (JObj ∅)) else None).
Proof.
  intros Hname Hproto. unfold hook_config_member.
  by rewrite js_member_object, Hname, Hproto.
Qed.

(** C5 (as amended). The hook no-op law: when [name] has no entry in the
    hooks table of the configuration and is not the name of a member that
    every object inherits from [Object.prototype] ([toString],
    [constructor], ...), [runHook(name, key)] returns successfully and
    leaves the world as it was: no subprocess is started, the index and
    the file system are not read, nothing is logged. *)
Theorem runHook_noop (w : World) (config hooks : gmap string json)
    (name key : string) :
  this_config w = Some config ->
  config !! "hooks" = Some (JObj hooks) ->
  hooks !! name = None ->
  in_Object_prototype name = false ->
  runHook name key w = (w, inr tt).
Proof.
  intros Hc Hhooks Hname Hproto.
  apply (runHook_not_configured w config name key None); [done| |done].
  by rewrite Hhooks, (js_member_own _ _ Hproto), Hname.
Qed.


(** C7. For a configured hook, [runHook(name, key)] takes [base/key] as
    candidate working directory when [key] is present in the index and
    [key] itself otherwise; the one subprocess it starts gets the
    candidate as explicit working directory if and only if the candidate
    exists on disk, and no working directory otherwise. *)
Theorem runHook_working_directory (w : World) (config : gmap string json)
    (base name key : string) (cmd : value) :
  this_config w = Some config ->
  config !! "base" = Some (JStr base) ->
  hook_command config name = Some cmd ->
  exists w' r pre opt post,
    runHook name key w = (w', r)
    /\ trace w' = (trace w ++ pre ++ EvSpawn cmd opt :: post)%list
    /\ steps pre = [] /\ steps post = []
    /\ let candidate :=
         if bool_decide (is_Some (index w !! key))
         then path.join base key else key in
       opt_cwd opt
       = if exists_in (fs w) candidate then Some candidate else None.
Proof.
  intros Hc Hb Hcmd.
  destruct (runHook_spawn _ _ _ name key _ Hc Hb Hcmd)
    as (w' & r & pre & post & Hrun & Htrace & Hpre & Hpost).
  exists w', r, pre, (hook_opt w config base name key), post.
  repeat (split; [done|]). reflexivity.
Qed.

End Hooks.

(** *** The add workflow *)

Section Workflow.

Context `{rt : Runtime}.

Lemma steps_app (t1 t2 : list Event) :
  steps (t1 ++ t2) = (steps t1 ++ steps t2)%list.
Proof. apply omap_app. Qed.

Lemma steps_none (t : list Event) :
  forallb (fun e => negb (is_step e)) t = true -> steps t = [].
Proof.
  induction t as [|e t IH]; simpl; [done|].
  intros [He Ht]%andb_true_iff. unfold is_step in He.
  unfold steps in *. simpl. destruct (step_of e); [done|]. by apply IH.
Qed.

Lemma stops_at_failure_app (t1 t2 : list Event) ok :
  no_failure t1 ->
  stops_at_failure (t1 ++ t2) ok = stops_at_failure t2 ok.
Proof.
  induction 1 as [|e t1 He _ IH]; simpl; [done|]. by rewrite He.
Qed.

Lemma stops_at_failure_spec (t : list Event) ok :
  stops_at_failure t ok = true ->
  forall before e after,
    t = (before ++ e :: after)%list -> is_failure e = true ->
    steps after = [] /\ ok = false.
Proof.
  intros Ht before. revert t Ht.
  induction before as [|e0 before IH]; intros t Ht e after -> He; simpl in Ht.
  - rewrite He in Ht. apply andb_true_iff in Ht as [Hok Hafter].
    split; [by apply steps_none|]. by destruct ok.
  - destruct (is_failure e0) eqn:He0.
    + apply andb_true_iff in Ht as [Hok Hrest]. split; [|by destruct ok].
      apply steps_none in Hrest. rewrite steps_app in Hrest.
      apply app_eq_nil in Hrest as [_ Hrest]. unfold steps in *.
      simpl in Hrest. by destruct (step_of e).
    + by eapply IH.
Qed.

(** Parts run one after the other. *)
Lemma part_then e1 e2 n1 n2 r :
  part e1 n1 (inr tt) -> part e2 n2 r -> part (e1 ++ e2) (n1 ++ n2) r.
Proof.
  intros (Hs1 & Hf1 & _) (Hs2 & Hf2 & Hstop2). split; [|split].
  - by rewrite steps_app, Hs1, Hs2.
  - intros Hr. apply Forall_app. split; [by apply Hf1|by apply Hf2].
  - rewrite stops_at_failure_app; [done|by apply Hf1].
Qed.

Lemma part_single (e : Event) :
  is_step e = false -> is_failure e = false -> part [] [e] (inr tt).
Proof.
  intros Hstep Hfail. unfold part, steps, is_step in *. simpl.
  destruct (step_of e); [done|]. rewrite Hfail.
  split; [done|]. split; [|done]. intros _. by constructor.
Qed.

(** What a run made of parts, stopped after any of them, shows. *)
Lemma part_run expected rest new r :
  part expected new r ->
  steps new `prefix_of` (expected ++ rest)%list
  /\ (forall before e after,
        new = (before ++ e :: after)%list -> is_failure e = true ->
        steps after = [] /\ r <> inr tt).
Proof.
  intros (Hs & _ & Hstop). split.
  - rewrite Hs. by apply prefix_app_r.
  - intros before e after Hnew He.
    destruct (stops_at_failure_spec _ _ Hstop _ _ _ Hnew He) as [Ha Hok].
    split; [done|]. by intros ->.
Qed.

Lemma script_part cmd opt child :
  part [StepRun cmd (opt_env opt)] (script_events cmd opt child)
       (script_result child).
Proof.
  unfold part, script_events, script_result, exit_ok, no_failure.
  destruct (exit_error child) as [[| | |[stderr|]]|]; simpl;
    (split; [done|]); (split; [|done]); try done.
  intros _. by repeat constructor.
Qed.

Lemma prelude_part w base name key :
  part [] (hook_prelude w base name key) (inr tt).
Proof.
  unfold part, hook_prelude, no_failure.
  destruct (String.eqb _ EmptyString); simpl;
    (split; [done|]); (split; [|done]); intros _; by repeat constructor.
Qed.

(** [runHook] as a part of the workflow: it shows the step of the hook
    when the hook is configured and no step otherwise, and leaves the
    configuration and the index as they were. *)
Lemma runHook_part w config base name key :
  this_config w = Some config ->
  config !! "base" = Some (JStr base) ->
  exists w' r new,
    runHook name key w = (w', r)
    /\ trace w' = (trace w ++ new)%list
    /\ this_config w' = Some config
    /\ index_file w' = index_file w
    /\ index w' = index w
    /\ part (hook_step config name) new r
    /\ (forall cmd, hook_command config name = Some cmd ->
          new = (hook_prelude w base name key
                 ++ script_events cmd (hook_opt w config base name key)
                      (runscript cmd (hook_opt w config base name key)
                                 (fs w)))%list).
Proof.
  intros Hc Hb.
  destruct (runHook_cases w config base name key Hc Hb)
    as [(cmd & Hcmd & Hrun)|(Hcmd & r & Hrun)].
  - rewrite Hrun. cbv zeta. eexists _, _, _.
    split; [reflexivity|]. simpl.
    split; [reflexivity|]. do 3 (split; [reflexivity|]). split.
    + unfold hook_step. rewrite Hcmd.
      apply (part_then [] _ _ _ _ (prelude_part w base name key)).
      apply (script_part cmd (hook_opt w config base name key)).
    + intros cmd' Hcmd'. rewrite Hcmd' in Hcmd. by injection Hcmd as ->.
  - exists w, r, []. split; [done|]. rewrite app_nil_r.
    do 4 (split; [done|]). split.
    + unfold hook_step. rewrite Hcmd. unfold part, no_failure. by split.
    + intros cmd Hcmd'. by rewrite Hcmd' in Hcmd.
Qed.

Lemma bind_inr {A B} (m : M A) (k : A -> M B) w w1 a :
  m w = (w1, inr a) -> bind m k w = k a w1.
Proof. unfold bind. by intros ->. Qed.

Lemma bind_inl {A B} (m : M A) (k : A -> M B) w w1 e :
  m w = (w1, inl e) -> bind m k w = (w1, inl e).
Proof. unfold bind. by intros ->. Qed.

Lemma Cache_set_eq key value w :
  Cache_set key value w =
  (mkWorld (fs w) (index_file w) (Some (<[key := value]> (index w)))
           (this_config w) (trace w ++ [EvCacheSet key value]),
   inr tt).
Proof.
  unfold Cache_set, Cache_load, index, bind, tell, modify, emit,
    with_index_mem. simpl.
  destruct (index_mem w); reflexivity.
Qed.

Lemma Cache_dump_eq w m :
  index_mem w = Some m ->
  Cache_dump w =
  if bool_decide (cachePath ∈ dirs (fs w))
  then (emit (EvCacheDump false) w, inl IOError)
  else (mkWorld (fs w) m (Some m) (this_config w)
                (trace w ++ [EvCacheDump true]),
        inr tt).
Proof.
  intros Hm. unfold Cache_dump, bind, gets, tell, modify, throw.
  rewrite Hm. cbv beta iota zeta.
  destruct (bool_decide (cachePath ∈ dirs (fs w)));
    unfold with_index_file, emit; simpl; rewrite ?Hm; reflexivity.
Qed.

(** [addRepo] from the point where the preadd hook has returned. *)
Lemma addRepo_after_preadd w w1 config base repo key :
  config !! "base" = Some (JStr base) ->
  runHook "preadd" key w = (w1, inr tt) ->
  this_config w1 = Some config ->
  addRepo repo key w =
  let child := runscript (clone_cmd repo base key) clone_opt (fs w1) in
  let t2 := (trace w1 ++ clone_events repo base key child)%list in
  match script_result child with
  | inl e =>
      (mkWorld (exit_fs child) (index_file w1) (index_mem w1) (Some config) t2,
       inl e)
  | inr _ =>
      let m := <[key := index_entry repo]> (index w1) in
      let t3 := (t2 ++ [EvCacheSet key (index_entry repo)])%list in
      if bool_decide (cachePath ∈ dirs (exit_fs child))
      then (mkWorld (exit_fs child) (index_file w1) (Some m) (Some config)
                    (t3 ++ [EvCacheDump false]),
            inl IOError)
      else runHook "postadd" key
             (mkWorld (exit_fs child) m (Some m) (Some config)
                      (t3 ++ [EvCacheDump true]))
  end.
Proof.
  intros Hb Hpre Hc1. unfold addRepo.
  rewrite (bind_inr _ _ _ _ _ Hpre).
  unfold the_config, bind at 1 2, gets. rewrite Hc1.
  unfold bind at 1, ret at 1, lift, join_base. rewrite Hb.
  unfold bind at 1, tell at 1.
  unfold bind at 1. rewrite runScript_eq. cbv zeta.
  unfold clone_events, clone_cmd, clone_opt, index_entry.
  destruct w1 as [f1 ifile1 imem1 cfg1 tr1]. simpl in *. subst cfg1.
  rewrite <- app_assoc. simpl.
  destruct (script_result _) as [e|[]]; [reflexivity|].
  unfold bind at 1. rewrite Cache_set_eq. simpl.
  unfold bind at 1.
  erewrite Cache_dump_eq by reflexivity. simpl.
  destruct (bool_decide _); reflexivity.
Qed.

Lemma clone_part repo base key child :
  part [StepRun (clone_cmd repo base key) clone_env]
       (clone_events repo base key child) (script_result child).
Proof.
  apply (part_then [] _ [_] _ _).
  - by apply part_single.
  - apply (script_part (clone_cmd repo base key) clone_opt).
Qed.

Lemma index_part key value (ok : bool) :
  part [StepSet key value; StepDump]
       [EvCacheSet key value; EvCacheDump ok]
       (if ok then inr tt else inl IOError).
Proof.
  unfold part, no_failure. destruct ok; simpl; (split; [done|]);
    (split; [|done]); [|done]. intros _. by repeat constructor.
Qed.

(** Every run of [addRepo] is made of the parts of the workflow, in
    order, up to the first one that does not return. *)
Lemma addRepo_parts w config base repo key :
  this_config w = Some config ->
  config !! "base" = Some (JStr base) ->
  exists w' r n1 later done_ rest,
    addRepo repo key w = (w', r)
    /\ trace w' = (trace w ++ n1 ++ later)%list
    /\ part done_ (n1 ++ later) r
    /\ (done_ ++ rest)%list = workflow config base repo key
    /\ (r = inr tt -> rest = [])
    /\ (forall cmd, hook_command config "preadd" = Some cmd ->
          n1 = (hook_prelude w base "preadd" key
                ++ script_events cmd (hook_opt w config base "preadd" key)
                     (runscript cmd (hook_opt w config base "preadd" key)
                                (fs w)))%list).
Proof.
  intros Hc Hb. unfold workflow.
  fold (clone_cmd repo base key). fold (index_entry repo).
  set (clone := StepRun (clone_cmd repo base key) clone_env).
  set (upsert := StepSet key (index_entry repo)).
  set (pre := hook_step config "preadd").
  set (post := hook_step config "postadd").
  destruct (runHook_part w config base "preadd" key Hc Hb)
    as (w1 & r1 & n1 & Hpre & Ht1 & Hc1 & _ & _ & Hp1 & Hn1).
  destruct r1 as [e1|[]].
  { exists w1, (inl e1), n1, [], pre, ([clone; upsert; StepDump] ++ post)%list.
    split; [unfold addRepo; by rewrite (bind_inl _ _ _ _ _ Hpre)|].
    rewrite app_nil_r. split; [done|]. split; [exact Hp1|].
    split; [reflexivity|]. split; [done|exact Hn1]. }
  rewrite (addRepo_after_preadd _ _ _ _ repo _ Hb Hpre Hc1). cbv zeta.
  set (child := runscript (clone_cmd repo base key) clone_opt (fs w1)).
  pose proof (clone_part repo base key child) as Hp2.
  destruct (script_result child) as [e2|[]] eqn:Hr2.
  { eexists _, (inl e2), n1, (clone_events repo base key child),
      (pre ++ [clone])%list, ([upsert; StepDump] ++ post)%list.
    split; [reflexivity|].
    split; [simpl trace; rewrite Ht1; by rewrite <- app_assoc|].
    split; [exact (part_then _ _ _ _ _ Hp1 Hp2)|].
    split; [by rewrite <- app_assoc|]. by split. }
  set (m := <[key := index_entry repo]> (index w1)).
  destruct (bool_decide (cachePath ∈ dirs (exit_fs child))).
  { eexists _, (inl IOError), n1,
      (clone_events repo base key child
       ++ [EvCacheSet key (index_entry repo); EvCacheDump false])%list,
      (pre ++ [clone] ++ [upsert; StepDump])%list, post.
    split; [reflexivity|].
    split; [simpl trace; rewrite Ht1; by rewrite <- !app_assoc|]. split.
    - apply (part_then _ _ _ _ _ Hp1).
      apply (part_then _ _ _ _ _ Hp2).
      apply (index_part key (index_entry repo) false).
    - split; [by rewrite <- !app_assoc|]. by split. }
  match goal with
  | |- context [runHook "postadd" key ?w4] =>
      destruct (runHook_part w4 config base "postadd" key eq_refl Hb)
        as (w5 & r5 & n5 & Hpost & Ht5 & _ & _ & _ & Hp5 & _)
  end.
  exists w5, r5, n1,
    (clone_events repo base key child
     ++ [EvCacheSet key (index_entry repo); EvCacheDump true] ++ n5)%list,
    (pre ++ [clone] ++ [upsert; StepDump] ++ post)%list, [].
  split; [exact Hpost|].
  split; [rewrite Ht5; simpl trace; rewrite Ht1; by rewrite <- !app_assoc|].
  split.
  - apply (part_then _ _ _ _ _ Hp1).
    apply (part_then _ _ _ _ _ Hp2).
    apply (part_then _ _ _ _ _ (index_part key (index_entry repo) true)).
    exact Hp5.
  - split; [by rewrite app_nil_r|]. by split.
Qed.

(** C2. Add-workflow ordering.  Whatever happens, the steps [addRepo]
    performs are an initial part of the sequence preadd hook, clone,
    index set, index dump, postadd hook (nothing reordered, nothing
    repeated); a run that returns normally performed the whole
    sequence and no step of it failed; nothing is performed after a
    failed step, and such a run does not return normally; and when
    [hooks.preadd] is configured its subprocess is the first step, with
    its output produced right after it starts, before any other step
    (the clone included) starts. *)
Theorem addRepo_ordering (w : World) (config : gmap string json)
    (base repo key : string) :
  this_config w = Some config ->
  config !! "base" = Some (JStr base) ->
  exists w' r new,
    addRepo repo key w = (w', r)
    /\ trace w' = (trace w ++ new)%list
    /\ steps new `prefix_of` workflow config base repo key
    /\ (r = inr tt ->
        steps new = workflow config base repo key
        /\ Forall (fun e => is_failure e = false) new)
    /\ (forall before e after,
          new = (before ++ e :: after)%list -> is_failure e = true ->
          steps after = [] /\ r <> inr tt)
    /\ (forall cmd, hook_command config "preadd" = Some cmd ->
          exists pre opt post,
            new = (pre ++ EvSpawn cmd opt
                       :: EvChildOut (exit_stdout (runscript cmd opt (fs w)))
                       :: post)%list
            /\ steps pre = []).
Proof.
  intros Hc Hb.
  destruct (addRepo_parts w config base repo key Hc Hb)
    as (w' & r & n1 & later & done_ & rest
        & Hrun & Htrace & Hpart & Hflow & Hrest & Hn1).
  exists w', r, (n1 ++ later)%list.
  split; [done|]. split; [done|].
  destruct (part_run done_ rest _ _ Hpart) as [Hprefix Hstop].
  rewrite Hflow in Hprefix.
  split; [done|]. split; [|split; [done|]].
  - intros ->. destruct Hpart as (Hsteps & Hok & _).
    rewrite (Hrest eq_refl), app_nil_r in Hflow.
    split; [by rewrite Hsteps|by apply Hok].
  - intros cmd Hcmd. rewrite (Hn1 cmd Hcmd).
    exists (hook_prelude w base "preadd" key),
      (hook_opt w config base "preadd" key).
    unfold script_events. eexists. split.
    + rewrite <- !app_assoc. reflexivity.
    + apply steps_hook_prelude.
Qed.

(** C1 (as amended). Add-workflow failure isolation.  When the preadd
    hook has returned and the clone subprocess fails, [addRepo] throws
    and the events of the clone are the last ones of the trace: the
    steps performed are the preadd hook (when configured) and the
    clone, so [cache.set] and [cache.dump] are not called and the
    postadd hook is not run; the persisted index and the index the
    command sees hold exactly the entries they held before. *)
Theorem addRepo_clone_failure (w w1 : World) (config : gmap string json)
    (base repo key : string) (err : error) :
  this_config w = Some config ->
  config !! "base" = Some (JStr base) ->
  runHook "preadd" key w = (w1, inr tt) ->
  exit_error (runscript (clone_cmd repo base key) clone_opt (fs w1))
    = Some err ->
  exists w' e new,
    addRepo repo key w = (w', inl e)
    /\ trace w'
       = (trace w1
          ++ clone_events repo base key
               (runscript (clone_cmd repo base key) clone_opt (fs w1)))%list
    /\ trace w' = (trace w ++ new)%list
    /\ steps new
       = (hook_step config "preadd"
          ++ [StepRun (clone_cmd repo base key) clone_env])%list
    /\ index_file w' = index_file w
    /\ index w' = index w.
Proof.
  intros Hc Hb Hpre Hfail.
  destruct (runHook_part w config base "preadd" key Hc Hb)
    as (w1' & r1 & n1 & Hpre' & Ht1 & Hc1 & Hfile & Hindex & Hp1 & _).
  rewrite Hpre in Hpre'. injection Hpre' as <- <-.
  rewrite (addRepo_after_preadd _ _ _ _ repo _ Hb Hpre Hc1). cbv zeta.
  set (child := runscript (clone_cmd repo base key) clone_opt (fs w1)) in *.
  assert (Hres : exists e, script_result child = inl e).
  { unfold script_result. rewrite Hfail. destruct err; eauto. }
  destruct Hres as [e Hres]. rewrite Hres.
  eexists _, e, (n1 ++ clone_events repo base key child)%list.
  split; [reflexivity|]. simpl trace. split; [done|].
  split; [by rewrite Ht1, <- app_assoc|]. split.
  - destruct Hp1 as (Hs1 & _). rewrite steps_app, Hs1. f_equal.
    by destruct (clone_part repo base key child) as (-> & _).
  - split; [done|]. unfold index in *. simpl. done.
Qed.

End Workflow.

(** *** [loadConfig] *)

Section LoadConfig.

Context `{rt : Runtime}.

Hypothesis HOME_absolute : path.isAbsolute HOME = true.
Hypothesis cwd_absolute : path.isAbsolute process_cwd = true.

Lemma configPath_exists (f : FS) text :
  files f !! configPath = Some text -> exists_in f configPath = true.
Proof.
  intros Hfile. unfold exists_in.
  assert (String.eqb configPath EmptyString = false) as ->
    by apply String.eqb_neq, join_nonempty.
  rewrite bool_decide_eq_true_2; [done|].
  apply elem_of_dom. eauto.
Qed.

(** C4. What [loadConfig] does when the configuration file exists and
    parses: the loaded object is merged over the defaults before
    [base] is tested, so the test cannot fail.  The resolved
    configuration becomes [this.config], nothing is asked and no file
    is written, whether or not the file defines [base]. *)
Theorem loadConfig_existing_file (w : World) (text : string) (loaded : json)
    (config : gmap string json) :
  configDir ∉ dom (files (fs w)) ->
  files (fs w) !! configPath = Some text ->
  JSON_parse text = Some loaded ->
  resolveConfig (Some loaded) (Some (JObj defaults)) = inr config ->
  exists w',
    loadConfig w = (w', inr tt)
    /\ this_config w' = Some config
    /\ trace w' = (trace w ++ [ EvMkdir configDir;
                                EvExists configPath true;
                                EvReadFile configPath ])%list
    /\ files (fs w') = files (fs w).
Proof.
  intros Hdir Hfile Hparse Hresolve.
  destruct (resolveConfig_result HOME_absolute cwd_absolute _ _ _ Hresolve)
    as (_ & _ & Hbase).
  pose proof (configPath_exists
                (mkFS (files (fs w)) ({[configDir]} ∪ dirs (fs w)))
                text Hfile) as Hexists.
  unfold loadConfig, mkdir, fs_exists, readJSON, fs_readFile,
    bind, gets, tell, modify, lift, throw, ret, emit, with_fs, with_config.
  rewrite bool_decide_eq_false_2 by done. cbn [fs files dirs trace].
  rewrite Hexists. cbn [fs files dirs trace].
  rewrite Hfile, Hparse, Hresolve, Hbase.
  eexists. split; [reflexivity|]. cbn [fs files dirs trace this_config].
  split; [done|]. split; [|done]. by rewrite <- !app_assoc.
Qed.

End LoadConfig.

(** *** The tilde case of [resolveConfig] *)

Section Tilde.

Context `{rt : Runtime}.

(** A base that starts with a tilde resolves to the expansion of [HOME]
    as a replacement text, followed by the rest of the base; no separator
    is inserted. *)
Lemma resolveConfig_tilde_expansion (partial : gmap string json)
    (rest : string) :
  partial !! "base" = Some (JStr (String "~" rest)) ->
  resolved_base (resolveConfig (Some (JObj partial)) (Some (JObj defaults)))
  = inr (Some (JStr (GetSubstitution "~" EmptyString rest HOME ++ rest))).
Proof.
  intros Hbase. unfold resolveConfig, Object_assign. cbv beta zeta.
  change (own_members (Some (JObj partial))) with partial.
  rewrite (lookup_union_Some_l _ _ _ _ Hbase), js_get_first_char.
  change (String.eqb "~" ".") with false.
  change (String.eqb "~" "~") with true. cbv iota.
  unfold replace_tilde. rewrite String_replace_tilde. simpl.
  by rewrite lookup_insert_eq.
Qed.

(** A base that is a string resolves by the four-case rule. *)
Lemma resolveConfig_base_rule (partial : gmap string json) (s : string) :
  partial !! "base" = Some (JStr s) ->
  resolved_base (resolveConfig (Some (JObj partial)) (Some (JObj defaults)))
  = inr (Some (JStr (base_rule s))).
Proof.
  intros Hbase. unfold resolveConfig, Object_assign. cbv beta zeta.
  change (own_members (Some (JObj partial))) with partial.
  rewrite (lookup_union_Some_l _ _ _ _ Hbase).
  destruct s as [|c t].
  - simpl. by rewrite lookup_insert_eq.
  - rewrite js_get_first_char. unfold base_rule, join_value, replace_tilde.
    simpl String.eqb.
    destruct (Ascii.eqb c "."); [simpl; by rewrite lookup_insert_eq|].
    destruct (Ascii.eqb c "~"); [simpl; by rewrite lookup_insert_eq|].
    destruct (Ascii.eqb c "/"); simpl.
    + by rewrite (lookup_union_Some_l _ _ _ _ Hbase).
    + by rewrite lookup_insert_eq.
Qed.

(** When [HOME] holds no dollar sign the tilde is replaced by [HOME]
    itself: [~/x] gives [HOME/x] and [~x] gives [HOME] followed by [x]. *)
Lemma resolveConfig_tilde_plain (partial : gmap string json) (rest : string) :
  no_dollar HOME = true ->
  partial !! "base" = Some (JStr (String "~" rest)) ->
  resolved_base (resolveConfig (Some (JObj partial)) (Some (JObj defaults)))
  = inr (Some (JStr (HOME ++ rest))).
Proof.
  intros Hplain Hbase.
  rewrite (resolveConfig_tilde_expansion _ _ Hbase).
  by rewrite GetSubstitution_plain.
Qed.

End Tilde.

(** C10. The tilde case on a home directory whose name holds two dollar
    signs in a row: [String.prototype.replace] reads them in its
    replacement text as one dollar sign, so [~/projj] does not resolve to
    [HOME] followed by [/projj], the path the defaults use for the same
    directory. *)
Theorem resolveConfig_tilde_dollar_home :
  @HOME Sample.rt_dollar = "/home/a$$b"
  /\ resolved_base
       (@resolveConfig Sample.rt_dollar
          (Some (JObj {[ "base" := JStr "~/projj" ]}))
          (Some (JObj (@defaults Sample.rt_dollar))))
     = inr (Some (JStr "/home/a$b/projj"))
  /\ @defaults Sample.rt_dollar !! "base" = Some (JStr "/home/a$$b/projj").
Proof.
  split; [reflexivity|]. split.
  - rewrite (@resolveConfig_tilde_expansion Sample.rt_dollar _ "/projj").
    + reflexivity.
    + by rewrite lookup_singleton_eq.
  - unfold defaults. by rewrite lookup_insert_eq.
Qed.

(** *** [url2dir] *)

(** C9. [url2dir] is a function of the URL alone: it is not a computation
    on the world, and of everything around the process it uses only the
    giturl library, so two runs in which that library answers alike
    return the same path for the same URL; and when the library
    normalizes [https://example.com/org/repo] to the web address of the
    repository, under the scheme [http] or under the scheme [https], the
    canonical key is [example.com/org/repo]. *)
Theorem url2dir_pure_example (rt1 rt2 : Runtime) (scheme : string) :
  (forall url, @giturl_parse rt1 url = @giturl_parse rt2 url) ->
  scheme = "http://" \/ scheme = "https://" ->
  @giturl_parse rt1 "https://example.com/org/repo"
    = scheme ++ "example.com/org/repo" ->
  (forall url, @url2dir rt1 url = @url2dir rt2 url)
  /\ @url2dir rt1 "https://example.com/org/repo" = "example.com/org/repo".
Proof.
  intros Hsame Hscheme Hparse. split.
  - intros url. unfold url2dir. by rewrite Hsame.
  - unfold url2dir. rewrite Hparse. by destruct Hscheme as [-> | ->].
Qed.

(* ===================================================================== *)
(** ** The statements at concrete inputs *)
(* ===================================================================== *)

Import Sample.

(** The resolved base is absolute for [~/code] in the home [/home/u]. *)
Lemma resolveConfig_base_absolute_witness :
  string_valued_base {[ "base" := JStr "~/code" ]}
  /\ exists config b,
       @resolveConfig rt_ok (Some (JObj {[ "base" := JStr "~/code" ]}))
                      (Some (JObj (@defaults rt_ok))) = inr config
       /\ config !! "base" = Some (JStr b)
       /\ path.isAbsolute b = true.
Proof.
  assert (Hstr : string_valued_base {[ "base" := JStr "~/code" ]})
    by (vm_compute; exact I).
  split; [exact Hstr|].
  exact (@resolveConfig_base_absolute rt_ok eq_refl eq_refl _ Hstr).
Defined.


(** No hooks configured: [runHook] leaves the world alone. *)
Lemma runHook_noop_witness :
  config_plain !! "hooks" = Some (JObj ∅)
  /\ @runHook rt_ok "preadd" repo_key (world config_plain ∅)
     = (world config_plain ∅, inr tt).
Proof.
  assert (Hhooks : config_plain !! "hooks" = Some (JObj ∅))
    by (vm_compute; reflexivity).
  split; [exact Hhooks|].
  apply (@runHook_noop rt_ok (world config_plain ∅) config_plain ∅
           "preadd" repo_key eq_refl Hhooks).
  - vm_compute; reflexivity.
  - reflexivity.
Defined.


(** The working directory of the preadd hook for a repository the index
    does not know and the disk does not hold: none. *)
Lemma runHook_working_directory_witness :
  @hook_command rt_ok config_preadd "preadd" = Some (Json (JStr "echo pre"))
  /\ exists w' r pre opt post,
       @runHook rt_ok "preadd" repo_key (world config_preadd ∅) = (w', r)
       /\ trace w' = (pre ++ EvSpawn (JStr "echo pre") opt :: post)%list
       /\ opt_cwd opt = None.
Proof.
  assert (Hbase : config_preadd !! "base" = Some (JStr "/work"))
    by (vm_compute; reflexivity).
  assert (Hcmd : @hook_command rt_ok config_preadd "preadd" = Some (Json (JStr "echo pre")))
    by (vm_compute; reflexivity).
  split; [exact Hcmd|].
  destruct (@runHook_working_directory rt_ok (world config_preadd ∅)
              config_preadd "/work" "preadd" repo_key (JStr "echo pre")
              eq_refl Hbase Hcmd)
    as (w' & r & pre & opt & post & Hrun & Htrace & _ & _ & Hcwd).
  exists w', r, pre, opt, post.
  split; [exact Hrun|]. split; [exact Htrace|].
  rewrite Hcwd. vm_compute; reflexivity.
Defined.

(** A successful add with the preadd hook [echo pre]. *)
Lemma addRepo_ordering_witness :
  config_preadd !! "base" = Some (JStr "/work")
  /\ exists w' r new,
       @addRepo rt_ok repo_url repo_key (world config_preadd ∅) = (w', r)
       /\ trace w' = new
       /\ steps new `prefix_of` @workflow rt_ok config_preadd "/work"
                                          repo_url repo_key.
Proof.
  assert (Hbase : config_preadd !! "base" = Some (JStr "/work"))
    by (vm_compute; reflexivity).
  split; [exact Hbase|].
  destruct (@addRepo_ordering rt_ok (world config_preadd ∅) config_preadd
              "/work" repo_url repo_key eq_refl Hbase)
    as (w' & r & new & Hrun & Htrace & Hprefix & _).
  exists w', r, new. split; [exact Hrun|]. split; [exact Htrace|exact Hprefix].
Defined.

(** A failing clone of a repository the index does not know. *)
Lemma addRepo_clone_failure_witness :
  @runHook rt_clone_fails "preadd" repo_key (world config_plain ∅)
    = (world config_plain ∅, inr tt)
  /\ exists w' e,
       @addRepo rt_clone_fails repo_url repo_key (world config_plain ∅)
         = (w', inl e)
       /\ index_file w' = ∅
       /\ index w' = ∅.
Proof.
  assert (Hbase : config_plain !! "base" = Some (JStr "/work"))
    by (vm_compute; reflexivity).
  assert (Hpre : @runHook rt_clone_fails "preadd" repo_key
                   (world config_plain ∅) = (world config_plain ∅, inr tt))
    by (vm_compute; reflexivity).
  split; [exact Hpre|].
  destruct (@addRepo_clone_failure rt_clone_fails (world config_plain ∅)
              (world config_plain ∅) config_plain "/work" repo_url repo_key
              (ProcessError (Some "fatal: failed")) eq_refl Hbase Hpre eq_refl)
    as (w' & e & new & Hrun & _ & _ & _ & Hfile & Hindex).
  exists w', e. split; [exact Hrun|]. split; [exact Hfile|exact Hindex].
Defined.

(** A configuration file that holds the empty object: the default base
    is kept and nothing is asked. *)
Lemma loadConfig_existing_file_witness :
  @JSON_parse rt_ok "{}" = Some (JObj ∅)
  /\ exists w',
       @loadConfig rt_ok (world_with_config_file "{}") = (w', inr tt)
       /\ this_config w' ≫= (fun config => config !! "base")
          = Some (JStr "/home/u/projj")
       /\ trace w' = [ EvMkdir "/home/u/.projj";
                       EvExists "/home/u/.projj/config.json" true;
                       EvReadFile "/home/u/.projj/config.json" ].
Proof.
  split; [reflexivity|].
  destruct (@loadConfig_existing_file rt_ok eq_refl eq_refl
              (world_with_config_file "{}") "{}" (JObj ∅)
              (@defaults rt_ok ∪ ∅))
    as (w' & Hrun & Hconfig & Htrace & _).
  - vm_compute. discriminate.
  - vm_compute; reflexivity.
  - reflexivity.
  - vm_compute; reflexivity.
  - exists w'. split; [exact Hrun|]. rewrite Hconfig, Htrace.
    split; vm_compute; reflexivity.
Defined.

(** Two runs that differ in the outcome of the clone agree on the path;
    the library gives the address under the scheme [http]. *)
Lemma url2dir_pure_example_witness :
  @giturl_parse (rt_web true) repo_url = "http://example.com/org/repo"
  /\ (forall url, @url2dir (rt_web true) url = @url2dir (rt_web false) url)
  /\ @url2dir (rt_web true) "https://example.com/org/repo"
     = "example.com/org/repo".
Proof.
  split; [reflexivity|].
  exact (url2dir_pure_example (rt_web true) (rt_web false) "http://"
           (fun url => eq_refl) (or_introl eq_refl) eq_refl).
Defined.

(** The end-to-end scenario of the specification: base [/work], no hooks;
    after a successful add the index, in memory and persisted, holds the
    repository under its canonical key. *)
Example addRepo_end_to_end :
  @url2dir (rt_web true) repo_url = repo_key
  /\ snd (@addRepo rt_ok repo_url repo_key (world config_plain ∅)) = inr tt
  /\ index (fst (@addRepo rt_ok repo_url repo_key (world config_plain ∅)))
     = known
  /\ index_file (fst (@addRepo rt_ok repo_url repo_key (world config_plain ∅)))
     = known.
Proof. repeat split; vm_compute; reflexivity. Qed.

(** A first run, without a configuration file: the base is asked for and
    the resolved configuration is written. *)
Example loadConfig_first_run :
  snd (@loadConfig rt_ok (mkWorld no_files ∅ None None [])) = inr tt
  /\ exists text,
       trace (fst (@loadConfig rt_ok (mkWorld no_files ∅ None None [])))
       = [ EvMkdir "/home/u/.projj";
           EvExists "/home/u/.projj/config.json" false;
           EvPrompt "/home/u/projj" "/home/u/projj";
           EvWriteFile "/home/u/.projj/config.json" text ].
Proof. split; [|eexists]; vm_compute; reflexivity. Qed.

(** Against C1 as stated: the clone fails for a repository the index
    already knows (the usual reason for a clone to fail), and the index
    holds an entry for the key afterward. *)
Lemma addRepo_clone_failure_keeps_entry :
  @runHook rt_clone_fails "preadd" repo_key (world config_plain known)
    = (world config_plain known, inr tt)
  /\ exit_error (@runscript rt_clone_fails
                   (@clone_cmd repo_url "/work" repo_key) (@clone_opt rt_clone_fails)
                   no_files)
     = Some (ProcessError (Some "fatal: failed"))
  /\ snd (@addRepo rt_clone_fails repo_url repo_key (world config_plain known))
     = inl (ProcessError (Some "fatal: failed"))
  /\ index (fst (@addRepo rt_clone_fails repo_url repo_key
                   (world config_plain known))) !! repo_key
     = Some (JObj {[ "repo" := JStr repo_url ]}).
Proof. repeat split; vm_compute; reflexivity. Qed.

(** Against C5 as stated: the hooks table is empty, so [toString] has no
    entry in it, and [runHook] starts a subprocess all the same, with the
    function that the table inherits under that name as its command; the
    subprocess fails and [runHook] does not return successfully. *)
Lemma runHook_inherited_name :
  config_plain !! "hooks" = Some (JObj ∅)
  /\ (∅ : gmap string json) !! "toString" = None
  /\ (exists env,
        steps (trace (fst (@runHook rt_ok "toString" repo_key
                             (world config_plain ∅))))
        = [StepRun (Inherited (JObj ∅) "toString") env])
  /\ is_ok (snd (@runHook rt_ok "toString" repo_key (world config_plain ∅)))
     = false.
Proof.
  split; [vm_compute; reflexivity|]. split; [reflexivity|].
  split; [eexists|]; vm_compute; reflexivity.
Qed.

(** A hook under a name that objects inherit: the configuration has no
    entry under [toString], and the function it inherits there is given
    to [JSON.stringify]; the [undefined] that comes back is assigned to
    [PROJJ_HOOK_CONFIG], where it hides the variable of the process
    environment. *)
Lemma runHook_inherited_hides_ambient :
  config_toString !! "toString" = None
  /\ @process_env rt_nested !! "PROJJ_HOOK_CONFIG" = Some "{}"
  /\ exists env,
       steps (trace (fst (@runHook rt_nested "toString" repo_key
                            (world config_toString ∅))))
       = [StepRun (JStr "echo pre") env]
       /\ env !! "PROJJ_HOOK_CONFIG" = None.
Proof.
  split; [vm_compute; reflexivity|]. split; [vm_compute; reflexivity|].
  eexists. split; [vm_compute; reflexivity|]. vm_compute; reflexivity.
Qed.

(** Likewise the configuration has no entry under [__proto__], and the
    hook of that name runs with [PROJJ_HOOK_CONFIG] set, to the
    serialization of [Object.prototype]. *)
Lemma runHook_inherited_hook_config :
  config_proto !! "__proto__" = None
  /\ exists env,
       steps (trace (fst (@runHook rt_ok "__proto__" repo_key
                            (world config_proto ∅))))
       = [StepRun (JStr "echo pre") env]
       /\ env !! "PROJJ_HOOK_CONFIG" = Some "{}".
Proof.
  split; [vm_compute; reflexivity|].
  eexists. split; [vm_compute; reflexivity|]. vm_compute; reflexivity.
Qed.


(* ===================================================================== *)
(** ** Further properties of the command *)
(* ===================================================================== *)

(** *** A joined path ends with the name joined on *)

Lemma list_ascii_app (a b : string) :
  list_ascii_of_string (a ++ b)
  = (list_ascii_of_string a ++ list_ascii_of_string b)%list.
Proof. induction a as [|c a IH]; simpl; [done|by rewrite IH]. Qed.

Lemma string_app_assoc (a b c : string) : (a ++ b) ++ c = a ++ (b ++ c).
Proof.
  induction a as [|x a IH]; [reflexivity|].
  change (String x ((a ++ b) ++ c) = String x (a ++ (b ++ c))).
  by rewrite IH.
Qed.

Lemma split_nonempty (p : string) : path.split p <> [].
Proof.
  induction p as [|c p IH]; simpl; [done|].
  destruct (Ascii.eqb c path.slash); [done|]. by destruct (path.split p).
Qed.

Lemma split_app_slash (a b : string) :
  path.split (a ++ String path.slash b)
  = (path.split a ++ path.split b)%list.
Proof.
  induction a as [|c a IH]; simpl; [done|].
  destruct (Ascii.eqb c path.slash); [by rewrite IH|].
  rewrite IH. pose proof (split_nonempty a).
  by destruct (path.split a).
Qed.

Lemma resolve_last above (seg : string) (segs stack : list string) :
  plain_segment seg ->
  exists kept, path.resolve above stack (segs ++ [seg]) = (kept ++ [seg])%list.
Proof.
  intros (_ & Hempty & Hdot & Hdots). revert stack.
  induction segs as [|s segs IH]; intros stack; simpl.
  - rewrite Hempty, Hdot, Hdots. simpl. by exists (rev stack).
  - repeat match goal with
           | |- context [if ?b then _ else _] => destruct b
           | |- context [match ?l with [] => _ | _ :: _ => _ end] =>
               destruct l
           end; apply IH.
Qed.

Lemma concat_with_slash_last (kept : list string) (seg : string) :
  exists pre, path.concat_with_slash (kept ++ [seg]) = pre ++ seg.
Proof.
  destruct kept as [|s kept]; simpl.
  - by exists EmptyString.
  - rewrite fold_left_app. simpl. eexists.
    by rewrite string_app_assoc.
Qed.

Lemma append_empty (a b : string) : a ++ b = EmptyString -> b = EmptyString.
Proof. destruct a; [done|discriminate]. Qed.

Lemma normalize_ends_with (p seg : string) (segs : list string) :
  plain_segment seg ->
  path.split p = (segs ++ [seg])%list ->
  path.ends_with_slash p = false ->
  exists pre, path.normalize p = pre ++ seg.
Proof.
  intros Hseg Hsplit Hslash. unfold path.normalize.
  destruct p as [|c p].
  { destruct Hseg as (_ & Hempty & _). simpl in Hsplit.
    destruct segs as [|s [|s' segs]]; simplify_eq/=. }
  rewrite Hsplit, Hslash.
  destruct (resolve_last (negb (path.isAbsolute (String c p))) seg segs []
              Hseg) as [kept ->].
  destruct (concat_with_slash_last kept seg) as [pre ->].
  assert (String.eqb (pre ++ seg) EmptyString = false) as ->.
  { apply String.eqb_neq. intros ->%append_empty.
    by destruct Hseg as (_ & ? & _). }
  rewrite andb_false_r. simpl.
  destruct (Ascii.eqb c path.slash); [by exists (String "/" pre)|by exists pre].
Qed.

Lemma ends_with_slash_app (a b : string) :
  b <> EmptyString ->
  path.ends_with_slash (a ++ b) = path.ends_with_slash b.
Proof.
  intros Hb. unfold path.ends_with_slash.
  rewrite list_ascii_app, rev_app_distr.
  destruct b as [|c b]; [done|]. simpl.
  by destruct (rev (list_ascii_of_string b)).
Qed.

Lemma join_ends_with (dir name : string) :
  plain_segment name ->
  path.ends_with_slash name = false ->
  exists pre, path.join dir name = pre ++ name.
Proof.
  intros Hname Hslash.
  assert (Hne : name <> EmptyString).
  { intros ->. by destruct Hname as (_ & ? & _). }
  unfold path.join. destruct dir as [|c dir], name as [|d name]; try done.
  - apply (normalize_ends_with _ _ []); [done| |done]. by destruct Hname.
  - apply (normalize_ends_with _ _ (path.split (String c dir))); [done| |].
    + change (String c dir ++ "/" ++ String d name)
        with (String c dir ++ String path.slash (String d name)).
      rewrite split_app_slash. f_equal. apply Hname.
    + rewrite <- string_app_assoc.
      by rewrite ends_with_slash_app.
Qed.

Lemma last_char_app (a b : string) (c : ascii) (rest : list ascii) :
  rev (list_ascii_of_string b) = c :: rest ->
  exists rest', rev (list_ascii_of_string (a ++ b)) = c :: rest'.
Proof.
  intros Hb. rewrite list_ascii_app, rev_app_distr, Hb. simpl. eauto.
Qed.

Section ConfigPaths.

Context `{rt : Runtime}.

(** The configuration file is not the configuration directory. *)
Lemma configPath_not_configDir : configPath <> configDir.
Proof.
  unfold configPath.
  destruct (join_ends_with configDir "config.json") as [pre Hfile];
    [by repeat split|done|].
  unfold configDir at 2.
  destruct (join_ends_with HOME ".projj") as [pre' Hdir];
    [by repeat split|done|].
  rewrite Hfile, Hdir. intros Heq.
  destruct (last_char_app pre "config.json" "n"
              (rev (list_ascii_of_string "config.jso")) eq_refl) as [r1 H1].
  destruct (last_char_app pre' ".projj" "j"
              (rev (list_ascii_of_string ".proj")) eq_refl) as [r2 H2].
  rewrite Heq, H2 in H1. discriminate.
Qed.

Lemma configPath_nonempty : String.eqb configPath EmptyString = false.
Proof. apply String.eqb_neq, join_nonempty. Qed.

End ConfigPaths.

(** *** [loadConfig], the other paths *)

Section LoadConfigPaths.

Context `{rt : Runtime}.

(** The prompt path of [loadConfig]. *)
Lemma ask_base_eq (w : World) :
  ask_base w =
  let answer := prompt "Set base directory:" default_base in
  let asked := (trace w ++ [EvPrompt default_base answer])%list in
  match resolveConfig (Some (JObj {[ "base" := JStr answer ]}))
                      (Some (JObj defaults)) with
  | inl e =>
      (mkWorld (fs w) (index_file w) (index_mem w) (this_config w) asked,
       inl e)
  | inr config =>
      if bool_decide (configPath ∈ dirs (fs w))
      then (mkWorld (fs w) (index_file w) (index_mem w) (Some config) asked,
            inl IOError)
      else
        let text := JSON_stringify 2 (JObj config) in
        (mkWorld (mkFS (<[configPath := text]> (files (fs w))) (dirs (fs w)))
                 (index_file w) (index_mem w) (Some config)
                 (asked ++ [EvWriteFile configPath text]),
         inr tt)
  end.
Proof.
  unfold ask_base, fs_writeFile, bind, tell, lift, modify, gets, throw,
    emit, with_config, with_fs. cbv zeta. cbn [fs files dirs trace].
  destruct (resolveConfig _ _) as [e|config]; [reflexivity|].
  cbn [fs files dirs trace index_file index_mem this_config].
  destruct (bool_decide (configPath ∈ dirs (fs w))); reflexivity.
Qed.

(** The answer to the prompt resolves: it is a string. *)
Lemma answer_resolves (answer : string) :
  exists config,
    resolveConfig (Some (JObj {[ "base" := JStr answer ]}))
                  (Some (JObj defaults)) = inr config.
Proof.
  pose proof (resolveConfig_base_rule {[ "base" := JStr answer ]} answer
                (lookup_singleton_eq _ _)) as Hrule.
  destruct (resolveConfig _ _) as [e|config]; [discriminate|eauto].
Qed.

Lemma loadConfig_asks (w : World) :
  configDir ∉ dom (files (fs w)) ->
  exists_in (fs w) configPath = false ->
  exists w' config,
    loadConfig w = (w', inr tt)
    /\ resolveConfig
         (Some (JObj {[ "base" :=
                          JStr (prompt "Set base directory:" default_base) ]}))
         (Some (JObj defaults)) = inr config
    /\ this_config w' = Some config
    /\ trace w'
       = (trace w
          ++ [ EvMkdir configDir;
               EvExists configPath false;
               EvPrompt default_base
                        (prompt "Set base directory:" default_base);
               EvWriteFile configPath (JSON_stringify 2 (JObj config)) ])%list
    /\ files (fs w') = <[configPath := JSON_stringify 2 (JObj config)]>
                         (files (fs w)).
Proof.
  intros Hdir Hnone.
  destruct (answer_resolves (prompt "Set base directory:" default_base))
    as [config Hconfig].
  assert (Hnodir : configPath ∉ dirs (fs w)).
  { intros Hin. unfold exists_in in Hnone.
    rewrite configPath_nonempty in Hnone.
    rewrite (bool_decide_eq_true_2 (configPath ∈ dirs (fs w))) in Hnone
      by done.
    by rewrite orb_true_r in Hnone. }
  assert (Hnofile : configPath ∉ dom (files (fs w))).
  { intros Hin. unfold exists_in in Hnone.
    rewrite configPath_nonempty in Hnone.
    by rewrite (bool_decide_eq_true_2 (configPath ∈ dom (files (fs w))))
      in Hnone by done. }
  assert (Hnodir' : configPath ∉ ({[configDir]} ∪ dirs (fs w) : gset string)).
  { intros [Heq%elem_of_singleton|Hin]%elem_of_union; [|done].
    by apply configPath_not_configDir. }
  exists (mkWorld
            (mkFS (<[configPath := JSON_stringify 2 (JObj config)]>
                     (files (fs w)))
                  ({[configDir]} ∪ dirs (fs w)))
            (index_file w) (index_mem w) (Some config)
            (trace w
             ++ [ EvMkdir configDir;
                  EvExists configPath false;
                  EvPrompt default_base
                           (prompt "Set base directory:" default_base);
                  EvWriteFile configPath (JSON_stringify 2 (JObj config)) ])),
    config.
  split; [|by repeat split].
  assert (Hnone' : exists_in (mkFS (files (fs w))
                                   ({[configDir]} ∪ dirs (fs w)))
                             configPath = false).
  { unfold exists_in. cbn [files dirs].
    rewrite (bool_decide_eq_false_2 (configPath ∈ dom (files (fs w))))
      by done.
    by rewrite (bool_decide_eq_false_2 _ Hnodir'), andb_false_r. }
  unfold loadConfig, mkdir, fs_exists, bind, gets, tell, modify,
    emit, with_fs.
  rewrite bool_decide_eq_false_2 by done.
  cbn [fs files dirs trace index_file index_mem this_config].
  rewrite Hnone', ask_base_eq. cbv zeta.
  cbn [fs files dirs trace index_file index_mem this_config].
  rewrite Hconfig, (bool_decide_eq_false_2 _ Hnodir').
  by rewrite <- !app_assoc.
Qed.

(** Without a configuration file [loadConfig] asks for the base with the
    default [HOME/projj], keeps the configuration resolved from the
    answer as [this.config] and writes it, serialized with indent 2, to
    the configuration file. *)
Theorem loadConfig_without_file (w : World) :
  configDir ∉ dom (files (fs w)) ->
  exists_in (fs w) configPath = false ->
  exists w' config,
    loadConfig w = (w', inr tt)
    /\ resolveConfig
         (Some (JObj {[ "base" :=
                          JStr (prompt "Set base directory:" default_base) ]}))
         (Some (JObj defaults)) = inr config
    /\ this_config w' = Some config
    /\ trace w'
       = (trace w
          ++ [ EvMkdir configDir;
               EvExists configPath false;
               EvPrompt default_base
                        (prompt "Set base directory:" default_base);
               EvWriteFile configPath (JSON_stringify 2 (JObj config)) ])%list
    /\ files (fs w') = <[configPath := JSON_stringify 2 (JObj config)]>
                         (files (fs w)).
Proof. apply loadConfig_asks. Qed.

Lemma loadConfig_bad_file_eq (w : World) (text : string) (err : error) :
  configDir ∉ dom (files (fs w)) ->
  files (fs w) !! configPath = Some text ->
  match JSON_parse text with
  | None => err = SyntaxError
  | Some loaded =>
      resolveConfig (Some loaded) (Some (JObj defaults)) = inl err
  end ->
  loadConfig w =
  (mkWorld (mkFS (files (fs w)) ({[configDir]} ∪ dirs (fs w)))
           (index_file w) (index_mem w) (this_config w)
           (trace w ++ [ EvMkdir configDir;
                         EvExists configPath true;
                         EvReadFile configPath ]),
   inl err).
Proof.
  intros Hdir Hfile Hbad.
  pose proof (configPath_exists
                (mkFS (files (fs w)) ({[configDir]} ∪ dirs (fs w)))
                text Hfile) as Hexists.
  unfold loadConfig, mkdir, fs_exists, readJSON, fs_readFile,
    bind, gets, tell, modify, lift, throw, ret, emit, with_fs, with_config.
  rewrite bool_decide_eq_false_2 by done. cbn [fs files dirs trace].
  rewrite Hexists. cbn [fs files dirs trace]. rewrite Hfile.
  destruct (JSON_parse text) as [loaded|].
  - rewrite Hbad. cbn [fs files dirs trace index_file index_mem this_config].
    by rewrite <- !app_assoc.
  - subst err. cbn [fs files dirs trace index_file index_mem this_config].
    by rewrite <- !app_assoc.
Qed.

(** A configuration file that does not parse, or whose content does not
    resolve, makes [loadConfig] throw the error of the parser or of
    [resolveConfig]: nothing is asked, nothing is written and
    [this.config] stays as it was. *)
Theorem loadConfig_bad_file (w : World) (text : string) (err : error) :
  configDir ∉ dom (files (fs w)) ->
  files (fs w) !! configPath = Some text ->
  match JSON_parse text with
  | None => err = SyntaxError
  | Some loaded =>
      resolveConfig (Some loaded) (Some (JObj defaults)) = inl err
  end ->
  exists w',
    loadConfig w = (w', inl err)
    /\ this_config w' = this_config w
    /\ trace w' = (trace w ++ [ EvMkdir configDir;
                                EvExists configPath true;
                                EvReadFile configPath ])%list
    /\ files (fs w') = files (fs w).
Proof.
  intros Hdir Hfile Hbad.
  rewrite (loadConfig_bad_file_eq w text err Hdir Hfile Hbad).
  eexists. by repeat split.
Qed.

(** With such a configuration file [run] never starts the body of the
    subcommand, whatever it is: it prints the error and exits with
    status 1, and the index has not been read. *)
Theorem run_bad_config (body : M unit) (w : World) (text : string)
    (err : error) :
  configDir ∉ dom (files (fs w)) ->
  files (fs w) !! configPath = Some text ->
  match JSON_parse text with
  | None => err = SyntaxError
  | Some loaded =>
      resolveConfig (Some loaded) (Some (JObj defaults)) = inl err
  end ->
  exists w',
    Command_run body w = mkEnded w' [ConsoleError err] (Some 1)
    /\ trace w' = (trace w ++ [ EvMkdir configDir;
                                EvExists configPath true;
                                EvReadFile configPath ])%list
    /\ index_mem w' = index_mem w
    /\ this_config w' = this_config w.
Proof.
  intros Hdir Hfile Hbad.
  pose proof (loadConfig_bad_file_eq w text err Hdir Hfile Hbad) as Hload.
  unfold Command_run, init.
  rewrite (bind_inl _ _ _ _ _ (bind_inl _ _ _ _ _ Hload)).
  eexists. by repeat split.
Qed.

End LoadConfigPaths.

(** *** What [loadConfig], [init] and [run] establish *)

Section Startup.

Context `{rt : Runtime}.

Hypothesis HOME_absolute : path.isAbsolute HOME = true.
Hypothesis cwd_absolute : path.isAbsolute process_cwd = true.

Lemma ask_base_returns (w w' : World) :
  ask_base w = (w', inr tt) ->
  exists source config,
    resolveConfig source (Some (JObj defaults)) = inr config
    /\ this_config w' = Some config
    /\ index_file w' = index_file w
    /\ index_mem w' = index_mem w.
Proof.
  rewrite ask_base_eq. cbv zeta.
  destruct (resolveConfig _ _) as [e|config] eqn:Hconfig; [discriminate|].
  destruct (bool_decide _); [discriminate|].
  intros [= <-]. by eexists _, config.
Qed.

Lemma loadConfig_returns (w w' : World) :
  loadConfig w = (w', inr tt) ->
  exists source config,
    resolveConfig source (Some (JObj defaults)) = inr config
    /\ this_config w' = Some config
    /\ index_file w' = index_file w
    /\ index_mem w' = index_mem w.
Proof.
  unfold loadConfig, mkdir, fs_exists, readJSON, fs_readFile,
    bind, gets, tell, modify, lift, throw, ret, emit, with_fs, with_config.
  destruct (bool_decide (configDir ∈ dom (files (fs w)))); [discriminate|].
  cbn [fs files dirs trace index_file index_mem this_config].
  destruct (exists_in _ configPath).
  - cbn [fs files dirs trace index_file index_mem this_config].
    destruct (files (fs w) !! configPath) as [text|]; [|discriminate].
    destruct (JSON_parse text) as [loaded|]; [|discriminate].
    destruct (resolveConfig (Some loaded) _) as [e|config] eqn:Hconfig;
      [discriminate|].
    destruct (truthy (config !! "base")).
    + intros [= <-]. by eexists _, config.
    + intros Hask. destruct (ask_base_returns _ _ Hask)
        as (source & config' & ? & ? & ? & ?).
      by eexists source, config'.
  - intros Hask. destruct (ask_base_returns _ _ Hask)
      as (source & config' & ? & ? & ? & ?).
    by eexists source, config'.
Qed.

Lemma loadConfig_returns_config (w w' : World) :
  loadConfig w = (w', inr tt) ->
  exists config,
    this_config w' = Some config
    /\ truthy (config !! "base") = true
    /\ (forall k, is_Some (defaults !! k) -> is_Some (config !! k))
    /\ index_file w' = index_file w
    /\ index_mem w' = index_mem w.
Proof.
  intros (source & config & Hconfig & Hthis & Hfile & Hmem)%loadConfig_returns.
  destruct (resolveConfig_result HOME_absolute cwd_absolute _ _ _ Hconfig)
    as (Hmerge & _ & Hbase).
  exists config. repeat split; try done.
  intros k [v Hk].
  assert (Hin : is_Some ((config ∪ (own_members (Some (JObj defaults)) ∪ ∅))
                           !! k)).
  { change (own_members (Some (JObj defaults))) with defaults.
    rewrite !lookup_union, Hk. destruct (config !! k); by eexists. }
  by rewrite Hmerge in Hin.
Qed.

(** When [loadConfig] returns, [this.config] is defined, holds every
    member the defaults hold ([base], [hooks], [alias]) and its [base] is
    truthy; the index is not touched. *)
Theorem loadConfig_postcondition (w w' : World) :
  loadConfig w = (w', inr tt) ->
  exists config,
    this_config w' = Some config
    /\ truthy (config !! "base") = true
    /\ (forall k, is_Some (defaults !! k) -> is_Some (config !! k))
    /\ index_file w' = index_file w
    /\ index_mem w' = index_mem w.
Proof. apply loadConfig_returns_config. Qed.

(** When [init] returns, the configuration is loaded as [loadConfig]
    leaves it and the index is in memory, with the entries the persisted
    index holds when nothing was loaded before. *)
Theorem init_postcondition (w w' : World) :
  init w = (w', inr tt) ->
  exists config,
    this_config w' = Some config
    /\ truthy (config !! "base") = true
    /\ (forall k, is_Some (defaults !! k) -> is_Some (config !! k))
    /\ index_mem w' = Some (index w)
    /\ index_file w' = index_file w.
Proof.
  unfold init. unfold bind at 1.
  destruct (loadConfig w) as [w1 [e|[]]] eqn:Hload; [discriminate|].
  destruct (loadConfig_returns_config _ _ Hload)
    as (config & Hthis & Hbase & Hkeys & Hfile & Hmem).
  unfold Cache_get_all, Cache_load, bind, tell, ret, emit, with_index_mem.
  cbn [fs files dirs trace index_file index_mem this_config].
  unfold index. rewrite <- Hmem, <- Hfile.
  destruct (index_mem w1) eqn:Hmem1; intros [= <-]; exists config;
    cbn [fs files dirs trace index_file index_mem this_config];
    by repeat split.
Qed.

(** When [init] throws, the body of the subcommand is not run: [run]
    ends in the world [init] left, prints the error and exits with
    status 1, whatever the body is. *)
Theorem run_init_failure (body : M unit) (w w1 : World) (err : error) :
  init w = (w1, inl err) ->
  Command_run body w = mkEnded w1 [ConsoleError err] (Some 1).
Proof.
  intros Hinit. unfold Command_run. by rewrite (bind_inl _ _ _ _ _ Hinit).
Qed.

End Startup.

(** *** [resolveConfig]: the merge, and a base that is not a string *)

Section ResolveConfigMore.

Context `{rt : Runtime}.



(** A base that is not a string: [resolveConfig] throws a [TypeError],
    except for an array or an object whose member [0] is the string [/],
    which is returned as it came, merged over the defaults. *)
Theorem resolveConfig_base_not_string (partial : gmap string json)
    (defs : jsval) (v : json) :
  partial !! "base" = Some v ->
  (forall s, v <> JStr s) ->
  resolveConfig (Some (JObj partial)) defs
  = match js_get (Some v) "0" with
    | inr (Some (JStr c)) =>
        if String.eqb c "/" then inr (partial ∪ (own_members defs ∪ ∅))
        else inl TypeError
    | _ => inl TypeError
    end.
Proof.
  intros Hbase Hv. unfold resolveConfig, Object_assign. cbv beta zeta.
  change (own_members (Some (JObj partial))) with partial.
  rewrite (lookup_union_Some_l _ _ _ _ Hbase).
  unfold join_value, replace_tilde.
  destruct v as [| | |s| |]; try reflexivity.
  - by destruct (Hv s).
  - destruct (js_get (Some (JArr l)) "0") as [e|c0] eqn:Hget;
      [discriminate Hget|].
    destruct c0 as [[| | |c| |]|]; try reflexivity.
    destruct (String.eqb_spec c ".") as [->|_]; [reflexivity|].
    destruct (String.eqb_spec c "~") as [->|_]; [reflexivity|].
    by destruct (String.eqb c "/").
  - destruct (js_get (Some (JObj m)) "0") as [e|c0] eqn:Hget;
      [discriminate Hget|].
    destruct c0 as [[| | |c| |]|]; try reflexivity.
    destruct (String.eqb_spec c ".") as [->|_]; [reflexivity|].
    destruct (String.eqb_spec c "~") as [->|_]; [reflexivity|].
    by destruct (String.eqb c "/").
Qed.

End ResolveConfigMore.

(** *** [url2dir]: the scheme is stripped wherever it first stands *)

Lemma substring_drop (n : nat) (a b : string) :
  String.length a = n ->
  String.substring n (String.length (a ++ b) - n) (a ++ b) = b.
Proof.
  revert n. induction a as [|c a IH]; intros n <-.
  - change (EmptyString ++ b) with b. cbn [String.length].
    rewrite Nat.sub_0_r. apply substring_all.
  - change (String c a ++ b) with (String c (a ++ b)).
    cbn [String.length String.substring]. by apply IH.
Qed.

Lemma prefix_app (a b : string) : String.prefix a (a ++ b) = true.
Proof.
  induction a as [|c a IH]; [by destruct b|].
  change (String c a ++ b) with (String c (a ++ b)). simpl.
  by destruct (ascii_dec c c).
Qed.

Lemma strip_scheme_https (rest : string) :
  strip_scheme ("https://" ++ rest) = rest.
Proof.
  destruct rest as [|c rest]; [reflexivity|].
  change (strip_scheme ("https://" ++ String c rest))
    with (if String.prefix "https://" ("https://" ++ String c rest)
          then String.substring 8
                 (String.length ("https://" ++ String c rest) - 8)
                 ("https://" ++ String c rest)
          else String c rest).
  rewrite prefix_app. by apply substring_drop.
Qed.

Lemma strip_scheme_http (rest : string) :
  strip_scheme ("http://" ++ rest) = rest.
Proof.
  destruct rest as [|c rest]; [reflexivity|].
  change (strip_scheme ("http://" ++ String c rest))
    with (if String.prefix "http://" ("http://" ++ String c rest)
          then String.substring 7
                 (String.length ("http://" ++ String c rest) - 7)
                 ("http://" ++ String c rest)
          else String c rest).
  rewrite prefix_app. by apply substring_drop.
Qed.

Lemma find_first_eq (pat s : string) :
  find_first pat s
  = if String.prefix pat s
    then Some (EmptyString,
               String.substring (String.length pat)
                                (String.length s - String.length pat) s)
    else match s with
         | EmptyString => None
         | String c t =>
             match find_first pat t with
             | Some (before, after) => Some (String c before, after)
             | None => None
             end
         end.
Proof. by destruct s. Qed.

Lemma strip_scheme_eq (s : string) :
  strip_scheme s
  = if String.prefix "https://" s
    then String.substring 8 (String.length s - 8) s
    else if String.prefix "http://" s
    then String.substring 7 (String.length s - 7) s
    else match s with
         | EmptyString => EmptyString
         | String c t => String c (strip_scheme t)
         end.
Proof. by destruct s. Qed.

(** A pattern that starts a text made of two parts lies in the first
    part, or the first part is its beginning and the rest of it starts
    the second part. *)
Lemma prefix_app_inv (pat pre tail : string) :
  String.prefix pat (pre ++ tail) = true ->
  String.prefix pat pre = true
  \/ exists rest, pat = pre ++ rest /\ String.prefix rest tail = true.
Proof.
  revert pat. induction pre as [|c pre IH]; intros pat Hp.
  - right. by exists pat.
  - destruct pat as [|a pat]; [by left|].
    change (String c pre ++ tail) with (String c (pre ++ tail)) in Hp.
    cbn [String.prefix] in Hp |- *.
    destruct (ascii_dec a c) as [->|]; [|discriminate].
    destruct (IH pat Hp) as [Hl|(rest & -> & Hr)]; [by left|].
    right. by exists rest.
Qed.

Lemma prefix_refl (a : string) : String.prefix a a = true.
Proof.
  induction a as [|c a IH]; [reflexivity|].
  simpl. by destruct (ascii_dec c c).
Qed.

Lemma app_empty_r (a : string) : a ++ EmptyString = a.
Proof.
  induction a as [|c a IH]; [reflexivity|].
  change (String c (a ++ EmptyString) = String c a). by rewrite IH.
Qed.

Lemma no_char_app (c : ascii) (a b : string) :
  no_char c (a ++ b) = no_char c a && no_char c b.
Proof. unfold no_char. by rewrite list_ascii_app, forallb_app. Qed.

(** The letter h stands at the start of a scheme only, so a scheme cannot
    begin in the text before another scheme and end inside it. *)
Lemma scheme_not_astride (q pre x : string) :
  no_char "h" q = true ->
  pre <> EmptyString ->
  String.prefix (String "h" q) (pre ++ String "h" x) = true ->
  String.prefix (String "h" q) pre = true.
Proof.
  intros Hq Hpre Hp.
  destruct (prefix_app_inv _ _ _ Hp) as [Hl|(rest & Heq & Hr)]; [done|].
  destruct rest as [|r0 rest].
  - rewrite Heq, app_empty_r. apply prefix_refl.
  - cbn [String.prefix] in Hr.
    destruct (ascii_dec r0 "h") as [->|]; [|discriminate].
    destruct pre as [|c pre]; [done|].
    change (String c pre ++ String "h" rest)
      with (String c (pre ++ String "h" rest)) in Heq.
    injection Heq as _ ->.
    rewrite no_char_app in Hq. apply andb_true_iff in Hq as [_ Hq].
    discriminate Hq.
Qed.

Lemma strip_scheme_unanchored (pre scheme rest : string) :
  find_first "http://" pre = None ->
  find_first "https://" pre = None ->
  scheme = "https://" \/ scheme = "http://" ->
  strip_scheme (pre ++ scheme ++ rest) = pre ++ rest.
Proof.
  intros Hhttp Hhttps Hscheme.
  assert (Htail : exists x, scheme ++ rest = String "h" x)
    by (destruct Hscheme as [-> | ->]; eexists; reflexivity).
  induction pre as [|c pre IH].
  - destruct Hscheme as [->| ->];
      [apply strip_scheme_https|apply strip_scheme_http].
  - rewrite find_first_eq in Hhttp. rewrite find_first_eq in Hhttps.
    destruct (String.prefix "http://" (String c pre)) eqn:Hp1;
      [discriminate|].
    destruct (String.prefix "https://" (String c pre)) eqn:Hp2;
      [discriminate|].
    destruct (find_first "http://" pre) as [[? ?]|]; [discriminate|].
    destruct (find_first "https://" pre) as [[? ?]|]; [discriminate|].
    destruct Htail as [x Htail].
    change (String c pre ++ scheme ++ rest)
      with (String c (pre ++ scheme ++ rest)).
    rewrite strip_scheme_eq.
    change (String c (pre ++ scheme ++ rest))
      with (String c pre ++ scheme ++ rest).
    rewrite Htail.
    destruct (String.prefix "https://" (String c pre ++ String "h" x))
      eqn:Hq2.
    { apply scheme_not_astride in Hq2; [congruence|reflexivity|done]. }
    destruct (String.prefix "http://" (String c pre ++ String "h" x))
      eqn:Hq1.
    { apply scheme_not_astride in Hq1; [congruence|reflexivity|done]. }
    change (String c pre ++ String "h" x)
      with (String c (pre ++ String "h" x)).
    cbv iota. rewrite <- Htail, IH by done. reflexivity.
Qed.

Lemma strip_scheme_none (s : string) :
  find_first "http://" s = None ->
  find_first "https://" s = None ->
  strip_scheme s = s.
Proof.
  induction s as [|c s IH]; [reflexivity|].
  intros Hhttp Hhttps.
  change (strip_scheme (String c s))
    with (if String.prefix "https://" (String c s)
          then String.substring 8 (String.length (String c s) - 8) (String c s)
          else if String.prefix "http://" (String c s)
          then String.substring 7 (String.length (String c s) - 7) (String c s)
          else String c (strip_scheme s)).
  change (find_first "http://" (String c s))
    with (if String.prefix "http://" (String c s)
          then Some (EmptyString,
                     String.substring (String.length "http://")
                       (String.length (String c s) - String.length "http://")
                       (String c s))
          else match find_first "http://" s with
               | Some (before, after) => Some (String c before, after)
               | None => None
               end) in Hhttp.
  change (find_first "https://" (String c s))
    with (if String.prefix "https://" (String c s)
          then Some (EmptyString,
                     String.substring (String.length "https://")
                       (String.length (String c s) - String.length "https://")
                       (String c s))
          else match find_first "https://" s with
               | Some (before, after) => Some (String c before, after)
               | None => None
               end) in Hhttps.
  destruct (String.prefix "https://" (String c s)); [discriminate|].
  destruct (String.prefix "http://" (String c s)); [discriminate|].
  destruct (find_first "http://" s) as [[? ?]|]; [discriminate|].
  destruct (find_first "https://" s) as [[? ?]|]; [discriminate|].
  by rewrite IH.
Qed.

Section Url2dir.

Context `{rt : Runtime}.

(** [url2dir] removes the first [http://] or [https://] of what
    [giturl.parse] returns, also when it is not at the start: whatever
    text stands in front of that first scheme (a text that holds no
    scheme itself) is kept. *)
Theorem url2dir_strips_scheme (url pre scheme rest : string) :
  find_first "http://" pre = None ->
  find_first "https://" pre = None ->
  scheme = "https://" \/ scheme = "http://" ->
  giturl_parse url = pre ++ scheme ++ rest ->
  url2dir url = pre ++ rest.
Proof.
  intros Hhttp Hhttps Hscheme Hparse. unfold url2dir. rewrite Hparse.
  by apply strip_scheme_unanchored.
Qed.

(** When what [giturl.parse] returns holds neither [http://] nor
    [https://], [url2dir] returns it unchanged. *)
Theorem url2dir_without_scheme (url : string) :
  find_first "http://" (giturl_parse url) = None ->
  find_first "https://" (giturl_parse url) = None ->
  url2dir url = giturl_parse url.
Proof. intros Hhttp Hhttps. unfold url2dir. by apply strip_scheme_none. Qed.

End Url2dir.

(** *** [runScript] and [runHook]: failures and what stays untouched *)

Section HooksMore.

Context `{rt : Runtime}.

(** A failing subprocess: [runScript] logs the captured standard error
    when the error carries one and throws the error it caught; an error
    that carries no [stdio] is replaced by the [TypeError] of reading
    [err.stdio.stderr].  The index and the configuration are not
    touched. *)
Theorem runScript_failure (cmd : value) (opt : RunOpts) (w : World)
    (err : error) :
  exit_error (runscript cmd opt (fs w)) = Some err ->
  exists w',
    runScript cmd opt w
    = (w', match err with
           | ProcessError stderr => inl (ProcessError stderr)
           | _ => inl TypeError
           end)
    /\ trace w'
       = (trace w
          ++ failure_events cmd opt (exit_stdout (runscript cmd opt (fs w)))
               match err with
               | ProcessError stderr => stderr
               | _ => None
               end)%list
    /\ fs w' = exit_fs (runscript cmd opt (fs w))
    /\ index_file w' = index_file w
    /\ index_mem w' = index_mem w
    /\ this_config w' = this_config w.
Proof.
  intros Herr. rewrite runScript_eq. cbv zeta.
  unfold script_result, script_events, failure_events, exit_ok.
  rewrite Herr. eexists. split; [reflexivity|].
  cbn [fs trace index_file index_mem this_config].
  split; [|done]. by destruct err as [| | |[stderr|]].
Qed.

(** A hooks entry that is falsy (the empty string, [null], [false], 0)
    is no hook: [runHook] returns and nothing happens. *)
Theorem runHook_falsy_entry (w : World) (config hooks : gmap string json)
    (name key : string) (v : json) :
  this_config w = Some config ->
  config !! "hooks" = Some (JObj hooks) ->
  hooks !! name = Some v ->
  truthy (Some v) = false ->
  runHook name key w = (w, inr tt).
Proof.
  intros Hc Hhooks Hname Hv.
  apply (runHook_not_configured w config name key (Some (Json v)));
    [done| |done].
  by rewrite Hhooks, js_member_object, Hname.
Qed.

(** Without a loaded configuration, or with a configuration whose
    [hooks] is missing or [null], [runHook] throws a [TypeError] at its
    first line and nothing happens. *)
Theorem runHook_without_table (w : World) (name key : string) :
  this_config w = None
  \/ (exists config, this_config w = Some config
        /\ (config !! "hooks" = None \/ config !! "hooks" = Some JNull)) ->
  runHook name key w = (w, inl TypeError).
Proof.
  intros [Hnone|(config & Hc & Hhooks)].
  - unfold runHook, the_config, bind, gets, throw. by rewrite Hnone.
  - apply (runHook_no_table w config name key TypeError Hc).
    by destruct Hhooks as [-> | ->].
Qed.

(** A configured hook whose subprocess exits with a failure: [runHook]
    throws the error of the runner as it is, after the index read, the
    directory test, the log line and the events of the failed
    subprocess. *)
Theorem runHook_failure (w : World) (config : gmap string json)
    (base name key : string) (cmd : value) (stderr : option string) :
  this_config w = Some config ->
  config !! "base" = Some (JStr base) ->
  hook_command config name = Some cmd ->
  exit_error (runscript cmd (hook_opt w config base name key) (fs w))
    = Some (ProcessError stderr) ->
  exists w',
    runHook name key w = (w', inl (ProcessError stderr))
    /\ trace w'
       = (trace w ++ hook_prelude w base name key
          ++ failure_events cmd (hook_opt w config base name key)
               (exit_stdout
                  (runscript cmd (hook_opt w config base name key) (fs w)))
               stderr)%list.
Proof.
  intros Hc Hb Hcmd Herr.
  rewrite (runHook_configured _ _ _ _ _ _ Hc Hb Hcmd). cbv zeta.
  unfold script_result, script_events, failure_events, exit_ok.
  rewrite Herr. eexists. split; [reflexivity|].
  cbn [trace]. by destruct stderr.
Qed.

(** Whatever [runHook] does, it leaves [this.config], the persisted index
    and the entries of the index as they were. *)
Theorem runHook_frame (w w' : World) (name key : string) (r : result unit) :
  runHook name key w = (w', r) ->
  this_config w' = this_config w
  /\ index_file w' = index_file w
  /\ index w' = index w.
Proof.
  unfold runHook, the_config, bind at 1 2, gets.
  destruct (this_config w) as [config|] eqn:Hc;
    [|by intros [= <- <-]].
  unfold bind at 1, ret at 1, lift at 1.
  destruct (js_member (config !! "hooks") name) as [e|hook];
    [by intros [= <- <-]|].
  destruct hook as [cmd|]; [|by intros [= <- <-]].
  destruct (negb (value_truthy (Some cmd))); [by intros [= <- <-]|].
  unfold Cache_get, Cache_load, join_base, fs_exists, bind, tell, lift, ret,
    emit, with_index_mem, index.
  destruct w as [f ifile imem cfg tr].
  cbn [fs trace index_file index_mem this_config] in *. subst cfg.
  destruct imem as [m|]; cbn [fs trace index_file index_mem this_config];
    destruct (bool_decide (is_Some (_ !! key)));
    try destruct (config !! "base") as [[| | |b| |]|];
    try (intros [= <- <-]; by cbn);
    try destruct (String.eqb _ EmptyString);
    rewrite runScript_eq; intros [= <- <-]; by cbn.
Qed.

End HooksMore.

(** *** [addRepo]: the index after a run, and the subprocesses it starts *)

Section AddRepoMore.

Context `{rt : Runtime}.

Lemma no_dump_in_part (expected : list Step) (new : list Event) r (ok : bool) :
  part expected new r ->
  StepDump ∉ expected ->
  EvCacheDump ok ∉ new.
Proof.
  intros (Hsteps & _) Hnone Hin. apply Hnone. rewrite <- Hsteps.
  apply list_elem_of_omap. by exists (EvCacheDump ok).
Qed.

Lemma no_dump_in_hook_step (config : gmap string json) (name : string) :
  StepDump ∉ hook_step config name.
Proof.
  unfold hook_step. destruct (hook_command config name).
  - by intros [=]%list_elem_of_singleton.
  - by intros ?%elem_of_nil.
Qed.

Lemma no_dump_in_clone (repo base key : string) :
  StepDump ∉ [StepRun (clone_cmd repo base key) clone_env].
Proof. by intros [=]%list_elem_of_singleton. Qed.

(** The index after any run of [addRepo]: either the run ended before
    the flush, without returning, and the persisted index is as it was;
    or the flush happened and the entry is in the index, in memory and
    persisted. *)
Lemma addRepo_index (w : World) (config : gmap string json)
    (base repo key : string) :
  this_config w = Some config ->
  config !! "base" = Some (JStr base) ->
  exists w' r new,
    addRepo repo key w = (w', r)
    /\ trace w' = (trace w ++ new)%list
    /\ (((EvCacheDump true ∉ new) /\ r <> inr tt
         /\ index_file w' = index_file w)
        \/ (EvCacheDump true ∈ new
            /\ index_file w' = <[key := index_entry repo]> (index w)
            /\ index w' = <[key := index_entry repo]> (index w))).
Proof.
  intros Hc Hb.
  destruct (runHook_part w config base "preadd" key Hc Hb)
    as (w1 & r1 & n1 & Hpre & Ht1 & Hc1 & Hfile1 & Hindex1 & Hp1 & _).
  pose proof (no_dump_in_part _ _ _ true Hp1
                (no_dump_in_hook_step config "preadd")) as Hn1.
  destruct r1 as [e1|[]].
  { exists w1, (inl e1), n1.
    split; [unfold addRepo; by rewrite (bind_inl _ _ _ _ _ Hpre)|].
    split; [done|]. left. by repeat split. }
  rewrite (addRepo_after_preadd _ _ _ _ repo _ Hb Hpre Hc1). cbv zeta.
  set (child := runscript (clone_cmd repo base key) clone_opt (fs w1)).
  pose proof (clone_part repo base key child) as Hp2.
  pose proof (no_dump_in_part _ _ _ true Hp2
                (no_dump_in_clone repo base key)) as Hn2.
  destruct (script_result child) as [e2|[]] eqn:Hr2.
  { eexists _, (inl e2), (n1 ++ clone_events repo base key child)%list.
    split; [reflexivity|].
    split; [cbn [trace]; rewrite Ht1; by rewrite <- app_assoc|].
    left. split; [|by split].
    by intros [?|?]%elem_of_app. }
  rewrite Hindex1.
  destruct (bool_decide (cachePath ∈ dirs (exit_fs child))).
  { eexists _, (inl IOError),
      (n1 ++ clone_events repo base key child
          ++ [EvCacheSet key (index_entry repo); EvCacheDump false])%list.
    split; [reflexivity|].
    split; [cbn [trace]; rewrite Ht1; by rewrite <- !app_assoc|].
    left. split; [|by split].
    intros [?|[?|Hin]%elem_of_app]%elem_of_app; [done..|].
    apply elem_of_cons in Hin as [[=]|Hin].
    by apply list_elem_of_singleton in Hin. }
  match goal with
  | |- context [runHook "postadd" key ?w4] =>
      destruct (runHook_part w4 config base "postadd" key eq_refl Hb)
        as (w5 & r5 & n5 & Hpost & Ht5 & _ & Hfile5 & Hindex5 & _ & _)
  end.
  exists w5, r5,
    (n1 ++ clone_events repo base key child
        ++ [EvCacheSet key (index_entry repo); EvCacheDump true] ++ n5)%list.
  split; [exact Hpost|].
  split; [rewrite Ht5; cbn [trace]; rewrite Ht1; by rewrite <- !app_assoc|].
  right. split; [|split; [exact Hfile5|exact Hindex5]].
  apply elem_of_app. right. apply elem_of_app. right.
  apply elem_of_cons. right. by apply elem_of_cons; left.
Qed.

(** When [addRepo] returns, the index holds the repository under its key,
    in memory and persisted, whatever it held under that key before; the
    other entries are the ones it had. *)
Theorem addRepo_success_index (w w' : World) (config : gmap string json)
    (base repo key : string) :
  this_config w = Some config ->
  config !! "base" = Some (JStr base) ->
  addRepo repo key w = (w', inr tt) ->
  index w' = <[key := JObj {[ "repo" := JStr repo ]}]> (index w)
  /\ index_file w' = <[key := JObj {[ "repo" := JStr repo ]}]> (index w).
Proof.
  intros Hc Hb Hrun.
  destruct (addRepo_index w config base repo key Hc Hb)
    as (w'' & r & new & Hrun' & _ & Hcases).
  rewrite Hrun in Hrun'. injection Hrun' as <- <-.
  by destruct Hcases as [(_ & ? & _)|(_ & ? & ?)].
Qed.

(** No rollback: once the index has been flushed the entry stays in the
    index, in memory and persisted, also when [addRepo] then throws
    (which can only come from the postadd hook). *)
Theorem addRepo_no_rollback (w w' : World) (config : gmap string json)
    (base repo key : string) (r : result unit) (new : list Event) :
  this_config w = Some config ->
  config !! "base" = Some (JStr base) ->
  addRepo repo key w = (w', r) ->
  trace w' = (trace w ++ new)%list ->
  EvCacheDump true ∈ new ->
  index w' = <[key := JObj {[ "repo" := JStr repo ]}]> (index w)
  /\ index_file w' = <[key := JObj {[ "repo" := JStr repo ]}]> (index w).
Proof.
  intros Hc Hb Hrun Htrace Hdump.
  destruct (addRepo_index w config base repo key Hc Hb)
    as (w'' & r' & new' & Hrun' & Htrace' & Hcases).
  rewrite Hrun in Hrun'. injection Hrun' as <- <-.
  rewrite Htrace in Htrace'. apply app_inv_head in Htrace' as <-.
  by destruct Hcases as [(? & _)|(_ & ? & ?)].
Qed.

Lemma clone_env_lookup (k : string) :
  clone_env !! k
  = if String.eqb k "GIT_SSH"
    then Some (default (path.join lib_dirname "ssh.js")
                       (process_env !! "GIT_SSH"))
    else process_env !! k.
Proof.
  unfold clone_env. rewrite lookup_union.
  destruct (String.eqb_spec k "GIT_SSH") as [->|Hk].
  - rewrite lookup_singleton_eq. by destruct (process_env !! "GIT_SSH").
  - rewrite lookup_singleton_ne by done. by destruct (process_env !! k).
Qed.

(** The clone: once the preadd hook has returned, [addRepo] logs the
    target [base/key] and starts [git clone repo target > /dev/null]
    with no working directory of its own and the process environment,
    to which [GIT_SSH] (the [ssh.js] beside the module) is added only
    when the process environment does not set it. *)
Theorem addRepo_clone_spawn (w w1 : World) (config : gmap string json)
    (base repo key : string) :
  this_config w = Some config ->
  config !! "base" = Some (JStr base) ->
  runHook "preadd" key w = (w1, inr tt) ->
  exists w' r opt rest,
    addRepo repo key w = (w', r)
    /\ trace w'
       = (trace w1
          ++ EvInfo ("Cloning into " ++ path.join base key)
          :: EvSpawn (JStr ("git clone " ++ repo ++ " "
                            ++ path.join base key ++ " > /dev/null")) opt
          :: rest)%list
    /\ opt_cwd opt = None
    /\ opt_env opt !! "GIT_SSH"
       = Some (default (path.join lib_dirname "ssh.js")
                       (process_env !! "GIT_SSH"))
    /\ (forall k, k <> "GIT_SSH" -> opt_env opt !! k = process_env !! k).
Proof.
  intros Hc Hb Hpre.
  destruct (runHook_part w config base "preadd" key Hc Hb)
    as (w1' & r1 & n1 & Hpre' & _ & Hc1 & _).
  rewrite Hpre in Hpre'. injection Hpre' as <- <-.
  assert (Henv : opt_cwd clone_opt = None
            /\ opt_env clone_opt !! "GIT_SSH"
               = Some (default (path.join lib_dirname "ssh.js")
                               (process_env !! "GIT_SSH"))
            /\ (forall k, k <> "GIT_SSH" ->
                  opt_env clone_opt !! k = process_env !! k)).
  { split; [done|]. cbn [clone_opt opt_env]. split.
    - by rewrite clone_env_lookup.
    - intros k Hk%String.eqb_neq. by rewrite clone_env_lookup, Hk. }
  rewrite (addRepo_after_preadd _ _ _ _ repo _ Hb Hpre Hc1). cbv zeta.
  set (child := runscript (clone_cmd repo base key) clone_opt (fs w1)).
  assert (Hevents : exists tail,
            clone_events repo base key child
            = EvInfo ("Cloning into " ++ path.join base key)
              :: EvSpawn (JStr ("git clone " ++ repo ++ " "
                                ++ path.join base key ++ " > /dev/null"))
                         clone_opt
              :: tail).
  { unfold clone_events, script_events. eexists. reflexivity. }
  destruct Hevents as [tail Hevents].
  destruct (script_result child) as [e2|[]].
  { eexists _, _, clone_opt, tail. split; [reflexivity|].
    cbn [trace]. by rewrite Hevents. }
  destruct (bool_decide (cachePath ∈ dirs (exit_fs child))).
  { eexists _, _, clone_opt, _. split; [reflexivity|].
    cbn [trace]. rewrite Hevents, <- !app_assoc. by split. }
  match goal with
  | |- context [runHook "postadd" key ?w4] =>
      destruct (runHook_part w4 config base "postadd" key eq_refl Hb)
        as (w5 & r5 & n5 & Hpost & Ht5 & _)
  end.
  eexists w5, r5, clone_opt, _. split; [exact Hpost|].
  rewrite Ht5. cbn [trace]. rewrite Hevents, <- !app_assoc. by split.
Qed.

(** A preadd hook that fails stops [addRepo] there: the error of the
    hook is thrown as it is, the last events are those of the failed
    hook, so nothing is cloned, and the index is as it was. *)
Theorem addRepo_preadd_failure (w : World) (config : gmap string json)
    (base repo key : string) (cmd : value) (stderr : option string) :
  this_config w = Some config ->
  config !! "base" = Some (JStr base) ->
  hook_command config "preadd" = Some cmd ->
  exit_error (runscript cmd (hook_opt w config base "preadd" key) (fs w))
    = Some (ProcessError stderr) ->
  exists w',
    addRepo repo key w = (w', inl (ProcessError stderr))
    /\ trace w'
       = (trace w ++ hook_prelude w base "preadd" key
          ++ failure_events cmd (hook_opt w config base "preadd" key)
               (exit_stdout
                  (runscript cmd (hook_opt w config base "preadd" key)
                             (fs w)))
               stderr)%list
    /\ index_file w' = index_file w
    /\ index w' = index w.
Proof.
  intros Hc Hb Hcmd Herr.
  pose proof (runHook_configured w config base "preadd" key cmd Hc Hb Hcmd)
    as Hpre.
  cbv zeta in Hpre. unfold script_result in Hpre. rewrite Herr in Hpre.
  unfold addRepo. rewrite (bind_inl _ _ _ _ _ Hpre).
  eexists. split; [reflexivity|]. cbn [trace index_file].
  split; [|done].
  unfold script_events, failure_events, exit_ok. rewrite Herr.
  by destruct stderr.
Qed.

(** The postadd hook of an add runs in the working copy: after a clone
    that succeeded and a flush that succeeded the key is in the index, so
    the postadd hook, the last subprocess of the run, gets [base/key] as
    working directory exactly when the clone left that directory on
    disk, whatever the index said before the add. *)
Theorem addRepo_postadd_directory (w w1 : World) (config : gmap string json)
    (base repo key : string) (cmd : value) :
  this_config w = Some config ->
  config !! "base" = Some (JStr base) ->
  hook_command config "postadd" = Some cmd ->
  runHook "preadd" key w = (w1, inr tt) ->
  exit_error (runscript (clone_cmd repo base key) clone_opt (fs w1)) = None ->
  cachePath ∉ dirs (exit_fs (runscript (clone_cmd repo base key) clone_opt
                                       (fs w1))) ->
  exists w' r pre opt post,
    addRepo repo key w = (w', r)
    /\ trace w' = (pre ++ EvSpawn cmd opt :: post)%list
    /\ steps post = []
    /\ opt_cwd opt
       = if exists_in (exit_fs (runscript (clone_cmd repo base key)
                                          clone_opt (fs w1)))
                      (path.join base key)
         then Some (path.join base key) else None.
Proof.
  intros Hc Hb Hcmd Hpre Hclone Hflush.
  destruct (runHook_part w config base "preadd" key Hc Hb)
    as (w1' & r1 & n1 & Hpre' & _ & Hc1 & _).
  rewrite Hpre in Hpre'. injection Hpre' as <- <-.
  rewrite (addRepo_after_preadd _ _ _ _ repo _ Hb Hpre Hc1). cbv zeta.
  unfold script_result. rewrite Hclone.
  rewrite (bool_decide_eq_false_2 _ Hflush).
  match goal with
  | |- context [runHook "postadd" key ?w4] =>
      destruct (runHook_spawn w4 config base "postadd" key cmd
                  eq_refl Hb Hcmd)
        as (w5 & r5 & pre & post & Hpost & Ht5 & _ & Hsteps)
  end.
  eexists w5, r5, _, _, post. split; [exact Hpost|].
  split; [rewrite Ht5, app_assoc; reflexivity|]. split; [done|].
  unfold hook_opt, hook_cwd, index.
  cbn [fs index_mem index_file opt_cwd].
  rewrite bool_decide_eq_true_2; [done|].
  simpl. rewrite lookup_insert_eq. by eexists.
Qed.

End AddRepoMore.

(** *** The base is asked for once *)

Section AskedOnce.

Context `{rt : Runtime}.

Hypothesis HOME_absolute : path.isAbsolute HOME = true.
Hypothesis cwd_absolute : path.isAbsolute process_cwd = true.

Lemma loadConfig_reads_file (w : World) (text : string) (loaded : json)
    (config : gmap string json) :
  configDir ∉ dom (files (fs w)) ->
  files (fs w) !! configPath = Some text ->
  JSON_parse text = Some loaded ->
  resolveConfig (Some loaded) (Some (JObj defaults)) = inr config ->
  loadConfig w =
  (mkWorld (mkFS (files (fs w)) ({[configDir]} ∪ dirs (fs w)))
           (index_file w) (index_mem w) (Some config)
           (trace w ++ [ EvMkdir configDir;
                         EvExists configPath true;
                         EvReadFile configPath ]),
   inr tt).
Proof.
  intros Hdir Hfile Hparse Hresolve.
  destruct (resolveConfig_result HOME_absolute cwd_absolute _ _ _ Hresolve)
    as (_ & _ & Hbase).
  pose proof (configPath_exists
                (mkFS (files (fs w)) ({[configDir]} ∪ dirs (fs w)))
                text Hfile) as Hexists.
  unfold loadConfig, mkdir, fs_exists, readJSON, fs_readFile,
    bind, gets, tell, modify, lift, throw, ret, emit, with_fs, with_config.
  rewrite bool_decide_eq_false_2 by done. cbn [fs files dirs trace].
  rewrite Hexists. cbn [fs files dirs trace].
  rewrite Hfile, Hparse, Hresolve, Hbase.
  cbn [fs files dirs trace index_file index_mem this_config].
  by rewrite <- !app_assoc.
Qed.

(** The base is asked for once.  When a first [loadConfig] found no
    configuration file and the file it wrote parses back to the
    configuration it serialized, every later [loadConfig] on that disk
    (a later run of the command) returns the same configuration without
    asking and without writing. *)
Theorem loadConfig_asks_once (w : World) (config : gmap string json) :
  configDir ∉ dom (files (fs w)) ->
  exists_in (fs w) configPath = false ->
  resolveConfig
    (Some (JObj {[ "base" :=
                     JStr (prompt "Set base directory:" default_base) ]}))
    (Some (JObj defaults)) = inr config ->
  JSON_parse (JSON_stringify 2 (JObj config)) = Some (JObj config) ->
  exists w1,
    loadConfig w = (w1, inr tt)
    /\ this_config w1 = Some config
    /\ forall w2, fs w2 = fs w1 ->
         exists w3,
           loadConfig w2 = (w3, inr tt)
           /\ this_config w3 = Some config
           /\ trace w3 = (trace w2 ++ [ EvMkdir configDir;
                                        EvExists configPath true;
                                        EvReadFile configPath ])%list
           /\ files (fs w3) = files (fs w1).
Proof.
  intros Hdir Hnone Hconfig Hround.
  destruct (loadConfig_asks w Hdir Hnone)
    as (w1 & config' & Hrun & Hconfig' & Hthis & _ & Hfiles).
  rewrite Hconfig in Hconfig'. injection Hconfig' as <-.
  exists w1. split; [done|]. split; [done|].
  intros w2 Hfs.
  assert (Hdir2 : configDir ∉ dom (files (fs w2))).
  { rewrite Hfs, Hfiles, dom_insert. intros [Heq%elem_of_singleton|?]%elem_of_union;
      [|done]. by apply configPath_not_configDir. }
  assert (Hfile2 : files (fs w2) !! configPath
                   = Some (JSON_stringify 2 (JObj config))).
  { by rewrite Hfs, Hfiles, lookup_insert_eq. }
  rewrite (loadConfig_reads_file w2 _ _ config Hdir2 Hfile2 Hround
             (resolveConfig_again HOME_absolute cwd_absolute _ _ _ Hconfig)).
  eexists. split; [reflexivity|].
  cbn [fs files dirs trace this_config]. by rewrite Hfs.
Qed.

End AskedOnce.

(* ===================================================================== *)
(** ** The further properties at concrete inputs *)
(* ===================================================================== *)

Lemma loadConfig_without_file_witness :
  exists_in (fs fresh) (@configPath rt_ok) = false
  /\ exists w' config,
       @loadConfig rt_ok fresh = (w', inr tt)
       /\ this_config w' = Some config
       /\ files (fs w') !! "/home/u/.projj/config.json"
          = Some (@JSON_stringify rt_ok 2 (JObj config)).
Proof.
  split; [reflexivity|].
  destruct (@loadConfig_without_file rt_ok fresh)
    as (w' & config & Hrun & _ & Hthis & _ & Hfiles).
  - vm_compute. discriminate.
  - reflexivity.
  - exists w', config. split; [exact Hrun|]. split; [exact Hthis|].
    rewrite Hfiles. apply lookup_insert_eq.
Defined.

Lemma loadConfig_bad_file_witness :
  @JSON_parse rt_ok "not json" = None
  /\ exists w',
       @loadConfig rt_ok world_with_bad_file = (w', inl SyntaxError)
       /\ this_config w' = None.
Proof.
  split; [reflexivity|].
  destruct (@loadConfig_bad_file rt_ok world_with_bad_file "not json"
              SyntaxError)
    as (w' & Hrun & Hthis & _).
  - vm_compute. discriminate.
  - vm_compute; reflexivity.
  - reflexivity.
  - exists w'. split; [exact Hrun|exact Hthis].
Defined.

Lemma run_bad_config_witness :
  @JSON_parse rt_ok "not json" = None
  /\ exists w',
       @Command_run rt_ok (@addRepo rt_ok repo_url repo_key)
                    world_with_bad_file
       = mkEnded w' [ConsoleError SyntaxError] (Some 1)
       /\ index_mem w' = None.
Proof.
  split; [reflexivity|].
  destruct (@run_bad_config rt_ok (@addRepo rt_ok repo_url repo_key)
              world_with_bad_file "not json" SyntaxError)
    as (w' & Hrun & _ & Hmem & _).
  - vm_compute. discriminate.
  - vm_compute; reflexivity.
  - reflexivity.
  - exists w'. split; [exact Hrun|exact Hmem].
Defined.

Lemma loadConfig_postcondition_witness :
  snd (@loadConfig rt_ok fresh) = inr tt
  /\ exists config,
       this_config (fst (@loadConfig rt_ok fresh)) = Some config
       /\ truthy (config !! "base") = true.
Proof.
  split; [vm_compute; reflexivity|].
  destruct (@loadConfig_postcondition rt_ok eq_refl eq_refl fresh
              (fst (@loadConfig rt_ok fresh)))
    as (config & Hthis & Hbase & _).
  - vm_compute; reflexivity.
  - exists config. split; [exact Hthis|exact Hbase].
Defined.

Lemma init_postcondition_witness :
  snd (@init rt_ok (world_with_config_file "{}")) = inr tt
  /\ exists config,
       this_config (fst (@init rt_ok (world_with_config_file "{}")))
         = Some config
       /\ index_mem (fst (@init rt_ok (world_with_config_file "{}")))
          = Some ∅.
Proof.
  split; [vm_compute; reflexivity|].
  destruct (@init_postcondition rt_ok eq_refl eq_refl
              (world_with_config_file "{}")
              (fst (@init rt_ok (world_with_config_file "{}"))))
    as (config & Hthis & _ & _ & Hmem & _).
  - vm_compute; reflexivity.
  - exists config. split; [exact Hthis|exact Hmem].
Defined.

Lemma loadConfig_asks_once_witness :
  @JSON_parse rt_saved (@JSON_stringify rt_saved 2 (JObj saved_config))
    = Some (JObj saved_config)
  /\ exists w1,
       @loadConfig rt_saved fresh = (w1, inr tt)
       /\ this_config w1 = Some saved_config
       /\ exists w3,
            @loadConfig rt_saved (mkWorld (fs w1) ∅ None None [])
              = (w3, inr tt)
            /\ this_config w3 = Some saved_config
            /\ trace w3 = [ EvMkdir (@configDir rt_saved);
                            EvExists (@configPath rt_saved) true;
                            EvReadFile (@configPath rt_saved) ].
Proof.
  split; [reflexivity|].
  destruct (@loadConfig_asks_once rt_saved eq_refl eq_refl fresh saved_config)
    as (w1 & Hrun & Hthis & Hlater).
  - vm_compute. discriminate.
  - reflexivity.
  - vm_compute; reflexivity.
  - reflexivity.
  - exists w1. split; [exact Hrun|]. split; [exact Hthis|].
    destruct (Hlater (mkWorld (fs w1) ∅ None None []) eq_refl)
      as (w3 & Hrun3 & Hthis3 & Htrace3 & _).
    exists w3. split; [exact Hrun3|]. split; [exact Hthis3|exact Htrace3].
Defined.


Lemma resolveConfig_base_not_string_witness :
  @resolveConfig rt_ok (Some (JObj {[ "base" := JNull ]}))
                 (Some (JObj (@defaults rt_ok)))
  = inl TypeError.
Proof.
  apply (@resolveConfig_base_not_string rt_ok {[ "base" := JNull ]}
           (Some (JObj (@defaults rt_ok))) JNull).
  - vm_compute; reflexivity.
  - intros s. discriminate.
Defined.

Lemma url2dir_strips_scheme_witness :
  @giturl_parse rt_ok "ssh http://example.com/a" = "ssh http://example.com/a"
  /\ @url2dir rt_ok "ssh http://example.com/a" = "ssh example.com/a".
Proof.
  split; [reflexivity|].
  apply (@url2dir_strips_scheme rt_ok "ssh http://example.com/a" "ssh "
           "http://" "example.com/a").
  - reflexivity.
  - reflexivity.
  - right. reflexivity.
  - reflexivity.
Defined.

Lemma url2dir_without_scheme_witness :
  @url2dir rt_ok "git@github.com:popomore/projj"
  = "git@github.com:popomore/projj".
Proof.
  apply (@url2dir_without_scheme rt_ok "git@github.com:popomore/projj");
    vm_compute; reflexivity.
Defined.

Lemma runScript_failure_witness :
  exit_error (@runscript rt_clone_fails (JStr "git clone a b") (mkOpts ∅ None)
                no_files)
    = Some (ProcessError (Some "fatal: failed"))
  /\ exists w',
       @runScript rt_clone_fails (JStr "git clone a b") (mkOpts ∅ None) fresh
         = (w', inl (ProcessError (Some "fatal: failed")))
       /\ trace w'
          = [ EvSpawn (JStr "git clone a b") (mkOpts ∅ None);
              EvChildOut EmptyString;
              EvExit (JStr "git clone a b") false;
              EvChildInfo "fatal: failed" ].
Proof.
  split; [reflexivity|].
  destruct (@runScript_failure rt_clone_fails (JStr "git clone a b")
              (mkOpts ∅ None) fresh (ProcessError (Some "fatal: failed"))
              eq_refl)
    as (w' & Hrun & Htrace & _).
  exists w'. split; [exact Hrun|exact Htrace].
Defined.

Lemma runHook_falsy_entry_witness :
  truthy (Some (JStr EmptyString)) = false
  /\ @runHook rt_ok "preadd" repo_key (world config_empty_hook ∅)
     = (world config_empty_hook ∅, inr tt).
Proof.
  split; [reflexivity|].
  apply (@runHook_falsy_entry rt_ok (world config_empty_hook ∅)
           config_empty_hook {[ "preadd" := JStr EmptyString ]}
           "preadd" repo_key (JStr EmptyString)).
  - reflexivity.
  - vm_compute; reflexivity.
  - vm_compute; reflexivity.
  - reflexivity.
Defined.

Lemma runHook_without_table_witness :
  this_config fresh = None
  /\ @runHook rt_ok "preadd" repo_key fresh = (fresh, inl TypeError).
Proof.
  split; [reflexivity|].
  apply (@runHook_without_table rt_ok fresh "preadd" repo_key).
  left. reflexivity.
Defined.

Lemma runHook_failure_witness :
  @hook_command rt_ok config_preadd_fails "preadd" = Some (Json (JStr "false"))
  /\ exists w',
       @runHook rt_ok "preadd" repo_key (world config_preadd_fails ∅)
         = (w', inl (ProcessError None)).
Proof.
  assert (Hbase : config_preadd_fails !! "base" = Some (JStr "/work"))
    by (vm_compute; reflexivity).
  assert (Hcmd : @hook_command rt_ok config_preadd_fails "preadd"
                 = Some (Json (JStr "false")))
    by (vm_compute; reflexivity).
  split; [exact Hcmd|].
  destruct (@runHook_failure rt_ok (world config_preadd_fails ∅)
              config_preadd_fails "/work" "preadd" repo_key (JStr "false")
              None eq_refl Hbase Hcmd eq_refl)
    as (w' & Hrun & _).
  exists w'. exact Hrun.
Defined.

Lemma runHook_frame_witness :
  snd (@runHook rt_ok "preadd" repo_key (world config_preadd known))
    = inr tt
  /\ index (fst (@runHook rt_ok "preadd" repo_key
                   (world config_preadd known))) = known
  /\ index_file (fst (@runHook rt_ok "preadd" repo_key
                        (world config_preadd known))) = known.
Proof.
  split; [vm_compute; reflexivity|].
  destruct (@runHook_frame rt_ok (world config_preadd known)
              (fst (@runHook rt_ok "preadd" repo_key
                      (world config_preadd known)))
              "preadd" repo_key (inr tt))
    as (_ & Hfile & Hindex).
  - vm_compute; reflexivity.
  - split; [exact Hindex|exact Hfile].
Defined.

Lemma addRepo_success_index_witness :
  snd (@addRepo rt_ok repo_url repo_key (world config_preadd ∅)) = inr tt
  /\ index_file (fst (@addRepo rt_ok repo_url repo_key
                        (world config_preadd ∅)))
     = <[repo_key := JObj {[ "repo" := JStr repo_url ]}]> ∅.
Proof.
  split; [vm_compute; reflexivity|].
  assert (Hbase : config_preadd !! "base" = Some (JStr "/work"))
    by (vm_compute; reflexivity).
  destruct (@addRepo_success_index rt_ok (world config_preadd ∅)
              (fst (@addRepo rt_ok repo_url repo_key (world config_preadd ∅)))
              config_preadd "/work" repo_url repo_key eq_refl Hbase)
    as (_ & Hfile).
  - vm_compute; reflexivity.
  - exact Hfile.
Defined.

Lemma addRepo_no_rollback_witness :
  snd (@addRepo rt_ok repo_url repo_key (world config_hooks ∅))
    = inl (ProcessError None)
  /\ index_file (fst (@addRepo rt_ok repo_url repo_key
                        (world config_hooks ∅)))
     = <[repo_key := JObj {[ "repo" := JStr repo_url ]}]> ∅.
Proof.
  split; [vm_compute; reflexivity|].
  assert (Hbase : config_hooks !! "base" = Some (JStr "/work"))
    by (vm_compute; reflexivity).
  destruct (@addRepo_no_rollback rt_ok (world config_hooks ∅)
              (fst (@addRepo rt_ok repo_url repo_key (world config_hooks ∅)))
              config_hooks "/work" repo_url repo_key
              (inl (ProcessError None))
              (trace (fst (@addRepo rt_ok repo_url repo_key
                             (world config_hooks ∅))))
              eq_refl Hbase)
    as (_ & Hfile).
  - vm_compute; reflexivity.
  - reflexivity.
  - vm_compute.
    repeat first [apply list_elem_of_here | apply list_elem_of_further].
  - exact Hfile.
Defined.

Lemma addRepo_clone_spawn_witness :
  @runHook rt_ok "preadd" repo_key (world config_plain ∅)
    = (world config_plain ∅, inr tt)
  /\ exists w' r opt rest,
       @addRepo rt_ok repo_url repo_key (world config_plain ∅) = (w', r)
       /\ trace w'
          = EvInfo "Cloning into /work/example.com/org/repo"
            :: EvSpawn (JStr "git clone https://example.com/org/repo /work/example.com/org/repo > /dev/null") opt
            :: rest
       /\ opt_env opt !! "GIT_SSH" = Some "/opt/projj/lib/ssh.js".
Proof.
  assert (Hbase : config_plain !! "base" = Some (JStr "/work"))
    by (vm_compute; reflexivity).
  assert (Hpre : @runHook rt_ok "preadd" repo_key (world config_plain ∅)
                 = (world config_plain ∅, inr tt))
    by (vm_compute; reflexivity).
  split; [exact Hpre|].
  destruct (@addRepo_clone_spawn rt_ok (world config_plain ∅)
              (world config_plain ∅) config_plain "/work" repo_url repo_key
              eq_refl Hbase Hpre)
    as (w' & r & opt & rest & Hrun & Htrace & _ & Hssh & _).
  exists w', r, opt, rest. split; [exact Hrun|].
  split; [exact Htrace|]. rewrite Hssh. vm_compute; reflexivity.
Defined.

Lemma addRepo_preadd_failure_witness :
  @hook_command rt_ok config_preadd_fails "preadd" = Some (Json (JStr "false"))
  /\ exists w',
       @addRepo rt_ok repo_url repo_key (world config_preadd_fails ∅)
         = (w', inl (ProcessError None))
       /\ index_file w' = ∅.
Proof.
  assert (Hbase : config_preadd_fails !! "base" = Some (JStr "/work"))
    by (vm_compute; reflexivity).
  assert (Hcmd : @hook_command rt_ok config_preadd_fails "preadd"
                 = Some (Json (JStr "false")))
    by (vm_compute; reflexivity).
  split; [exact Hcmd|].
  destruct (@addRepo_preadd_failure rt_ok (world config_preadd_fails ∅)
              config_preadd_fails "/work" repo_url repo_key (JStr "false")
              None eq_refl Hbase Hcmd eq_refl)
    as (w' & Hrun & _ & Hfile & _).
  exists w'. split; [exact Hrun|exact Hfile].
Defined.

Lemma addRepo_postadd_directory_witness :
  @hook_command rt_ok config_hooks "postadd" = Some (Json (JStr "false"))
  /\ exists w' r pre opt post,
       @addRepo rt_ok repo_url repo_key (world config_hooks ∅) = (w', r)
       /\ trace w' = (pre ++ EvSpawn (JStr "false") opt :: post)%list
       /\ steps post = []
       /\ opt_cwd opt = None.
Proof.
  assert (Hbase : config_hooks !! "base" = Some (JStr "/work"))
    by (vm_compute; reflexivity).
  assert (Hcmd : @hook_command rt_ok config_hooks "postadd" = Some (Json (JStr "false")))
    by (vm_compute; reflexivity).
  split; [exact Hcmd|].
  destruct (@addRepo_postadd_directory rt_ok (world config_hooks ∅)
              (fst (@runHook rt_ok "preadd" repo_key (world config_hooks ∅)))
              config_hooks "/work" repo_url repo_key (JStr "false")
              eq_refl Hbase Hcmd)
    as (w' & r & pre & opt & post & Hrun & Htrace & Hsteps & Hcwd).
  - vm_compute; reflexivity.
  - reflexivity.
  - vm_compute. discriminate.
  - exists w', r, pre, opt, post. split; [exact Hrun|].
    split; [exact Htrace|]. split; [exact Hsteps|].
    rewrite Hcwd. vm_compute; reflexivity.
Defined.
